(** * HR_Interviewer: the voice-session core, embedded in Rocq

    A shallow embedding of [src/utils/audio.ts] (the PCM codec) and of the
    session logic of [src/components/InterviewSession.tsx] (capture gating,
    resampling, playback scheduling, transcript aggregation, the ending
    guard and the generation token), with the properties the specification
    states about them.

    Numbers.  JavaScript numbers are IEEE doubles and a [Float32Array]
    holds IEEE singles.  The codec only multiplies a single by 32768 or
    32767 and divides a 16-bit integer by 32768: these products and
    quotients are exactly representable as doubles (24 + 15 significant
    bits), so every finite value is modelled by the rational it denotes,
    and [NaN] and the two infinities are kept as separate values (the sign
    of zero plays no part).  The resampler, whose arithmetic does round, is
    stated over abstract arithmetic operations instead.  Times on the
    output timeline are doubles too, modelled by the rationals they
    denote; their sums and quotients are rounded, by a rounding that is
    kept abstract and only assumed monotone.

    State.  The refs and the React state of the component are one record,
    a handler is a function from the state to the new state and the list
    of effects it has on the outside (frames sent, buffers started,
    resources released, the completion callback), and an exception is a
    value.  Each handler runs to completion before the next one starts, as
    on the single JavaScript thread, and the component is rendered, and
    its effects run, between two handlers.  A closure is a function of
    what it closed over: a callback of the channel takes the token of the
    start that created it, and [handleEndInterview] the [transcript] of
    the render it belongs to. *)

From Stdlib Require Import ZArith QArith Qminmax Qabs Qround Lia Lqa.
From Stdlib Require Import String Ascii List.
From Stdlib Require Import DecimalString DecimalZ.
From stdpp Require Import base list.
Import ListNotations.

Local Open Scope Z_scope.

(** ** JavaScript numbers *)

Module JS.

Inductive number : Type :=
  | NaN
  | PInf
  | NInf
  | Fin (q : Q).

(** [Math.min(a, b)] and [Math.max(a, b)]: [NaN] is contagious. *)
Definition Math_min (a b : number) : number :=
  match a, b with
  | NaN, _ | _, NaN => NaN
  | NInf, _ | _, NInf => NInf
  | PInf, y => y
  | x, PInf => x
  | Fin x, Fin y => Fin (Qmin x y)
  end.

Definition Math_max (a b : number) : number :=
  match a, b with
  | NaN, _ | _, NaN => NaN
  | PInf, _ | _, PInf => PInf
  | NInf, y => y
  | x, NInf => x
  | Fin x, Fin y => Fin (Qmax x y)
  end.

(** [a < b]: false as soon as one side is [NaN]. *)
Definition lt (a b : number) : bool :=
  match a, b with
  | NaN, _ | _, NaN => false
  | _, NInf => false
  | NInf, _ => true
  | PInf, _ => false
  | Fin _, PInf => true
  | Fin x, Fin y => negb (Qle_bool y x)
  end.

Definition Qsign_neg (q : Q) : bool := negb (Qle_bool 0 q).
Definition Qis_zero (q : Q) : bool := Qeq_bool q 0.

(** [a * b]. *)
Definition mul (a b : number) : number :=
  match a, b with
  | NaN, _ | _, NaN => NaN
  | Fin x, Fin y => Fin (x * y)
  | Fin x, PInf | PInf, Fin x =>
      if Qis_zero x then NaN else if Qsign_neg x then NInf else PInf
  | Fin x, NInf | NInf, Fin x =>
      if Qis_zero x then NaN else if Qsign_neg x then PInf else NInf
  | PInf, PInf | NInf, NInf => PInf
  | PInf, NInf | NInf, PInf => NInf
  end.

(** Truncation towards zero of a rational. *)
Definition Qtrunc (q : Q) : Z :=
  if Qsign_neg q then Qceiling q else Qfloor q.

(** The conversion applied when a number is stored in an [Int16Array]
    (ECMAScript [ToInt16]): [NaN] and the infinities become 0, a finite
    value is truncated towards zero and wrapped modulo 2^16 into the signed
    range. *)
Definition ToInt16 (v : number) : Z :=
  match v with
  | Fin q =>
      let int16bit := Qtrunc q mod 65536 in
      if 32768 <=? int16bit then int16bit - 65536 else int16bit
  | _ => 0
  end.

(** The conversion applied when a number is stored in a [Uint8Array]. *)
Definition ToUint8 (z : Z) : Z := z mod 256.

(** Reading [a[i]]: an index out of range reads [undefined], whose value in
    the surrounding expression is the first argument. *)
Definition get {A} (undefined : A) (a : list A) (i : nat) : A :=
  default undefined (a !! i).

(** [for (let i = 0; i < n; i++) body]. *)
Definition for_loop {S : Type} (n : nat) (body : nat -> S -> S) (s : S) : S :=
  fold_left (fun s i => body i s) (seq 0 n) s.

End JS.

Import JS.

(** ** The platform's base64: [btoa] and [atob]

    Both are browser built-ins.  [btoa] is RFC 4648 base64 with padding and
    throws on a code unit above 255; [atob] is the forgiving decoder of the
    HTML standard: ASCII whitespace is removed, up to two trailing [=] are
    dropped when the length is a multiple of four, a length of 1 modulo 4
    or a character outside the alphabet throws.  A binary string is the
    list of its code units; an exception is [None]. *)

Module Base64.

Definition alphabet : list ascii :=
  list_ascii_of_string
    "ABCDEFGHIJKLMNOPQRSTUVWXYZabcdefghijklmnopqrstuvwxyz0123456789+/".

Definition pad : ascii := "="%char.

Definition b64_char (s : Z) : ascii := nth (Z.to_nat s) alphabet pad.

Fixpoint index_of (c : ascii) (l : list ascii) (i : Z) : option Z :=
  match l with
  | [] => None
  | x :: l' => if Ascii.eqb c x then Some i else index_of c l' (i + 1)
  end.

Definition b64_index (c : ascii) : option Z := index_of c alphabet 0.

(** Three bytes make four sextets; a last group of one or two bytes makes
    two or three. *)
Fixpoint sextets (bs : list Z) : list Z :=
  match bs with
  | a :: b :: c :: rest =>
      a / 4 :: (a mod 4) * 16 + b / 16 :: (b mod 16) * 4 + c / 64 :: c mod 64
        :: sextets rest
  | [a; b] => [a / 4; (a mod 4) * 16 + b / 16; (b mod 16) * 4]
  | [a] => [a / 4; (a mod 4) * 16]
  | [] => []
  end.

Fixpoint unsextets (ss : list Z) : list Z :=
  match ss with
  | s0 :: s1 :: s2 :: s3 :: rest =>
      s0 * 4 + s1 / 16 :: (s1 mod 16) * 16 + s2 / 4 :: (s2 mod 4) * 64 + s3
        :: unsextets rest
  | [s0; s1; s2] => [s0 * 4 + s1 / 16; (s1 mod 16) * 16 + s2 / 4]
  | [s0; s1] => [s0 * 4 + s1 / 16]
  | _ => []
  end.

Definition padding (n : nat) : list ascii :=
  match (n mod 4)%nat with
  | 2%nat => [pad; pad]
  | 3%nat => [pad]
  | _ => []
  end.

Definition is_byte (z : Z) : bool := (0 <=? z) && (z <? 256).

Definition btoa (binary : list Z) : option string :=
  if forallb is_byte binary then
    let body := map b64_char (sextets binary) in
    Some (string_of_list_ascii (body ++ padding (length body)))
  else None.

Definition is_whitespace (c : ascii) : bool :=
  match nat_of_ascii c with
  | 9%nat | 10%nat | 12%nat | 13%nat | 32%nat => true
  | _ => false
  end.

Definition strip_padding (l : list ascii) : list ascii :=
  if ((length l mod 4)%nat =? 0)%nat then
    match rev l with
    | p1 :: p2 :: r =>
        if Ascii.eqb p1 pad then
          if Ascii.eqb p2 pad then rev r else rev (p2 :: r)
        else l
    | [p1] => if Ascii.eqb p1 pad then [] else l
    | [] => l
    end
  else l.

Fixpoint indices (l : list ascii) : option (list Z) :=
  match l with
  | [] => Some []
  | c :: l' =>
      match b64_index c, indices l' with
      | Some s, Some ss => Some (s :: ss)
      | _, _ => None
      end
  end.

Definition atob (data : string) : option (list Z) :=
  let l := strip_padding
             (List.filter (fun c => negb (is_whitespace c))
                          (list_ascii_of_string data)) in
  if ((length l mod 4)%nat =? 1)%nat then None
  else option_map unsextets (indices l).

End Base64.

(** ** The codec of [src/utils/audio.ts] *)

Module Audio.

(** A [Float32Array], an [Int16Array] and a [Uint8Array] are lists of their
    elements.  The byte view of an [Int16Array]'s buffer is little-endian:
    each element gives its low byte, then its high byte, in two's
    complement. *)
Definition bytes_of_int16 (a : list Z) : list Z :=
  flat_map (fun z => [z mod 256; (z / 256) mod 256]) a.

Definition int16_of_pair (lo hi : Z) : Z :=
  let u := lo + 256 * hi in
  if 32768 <=? u then u - 65536 else u.

Fixpoint pairs (bytes : list Z) : list Z :=
  match bytes with
  | lo :: hi :: rest => int16_of_pair lo hi :: pairs rest
  | _ => []
  end.

(** [new Int16Array(bytes.buffer)] throws a [RangeError] when the byte
    length is odd. *)
Definition Int16Array_of_buffer (bytes : list Z) : option (list Z) :=
  if Nat.even (length bytes) then Some (pairs bytes) else None.

(** [Math.max(-1, Math.min(1, x))] *)
Definition clamp (x : number) : number :=
  Math_max (Fin (-1)) (Math_min (Fin 1) x).

(** [s < 0 ? s * 0x8000 : s * 0x7FFF] *)
Definition scale (s : number) : number :=
  if lt s (Fin 0) then mul s (Fin 32768) else mul s (Fin 32767).

(** The first loop of [float32ArrayToBase64]: the [Int16Array] it fills. *)
Definition quantize (data : list number) : list Z :=
  let l := length data in
  for_loop l
    (fun i int16 => <[i := ToInt16 (scale (clamp (get NaN data i)))]> int16)
    (replicate l 0).

(** The second loop: the binary string built from the byte view. *)
Definition binary_of_bytes (bytes : list Z) : list Z :=
  for_loop (length bytes)
    (fun i binary => binary ++ [get 0 bytes i]) [].

Definition float32ArrayToBase64 (data : list number) : option string :=
  let int16 := quantize data in
  let bytes := bytes_of_int16 int16 in
  Base64.btoa (binary_of_bytes bytes).

(** The first loop of [base64ToFloat32Array]. *)
Definition bytes_of_binary (binaryString : list Z) : list Z :=
  let len := length binaryString in
  for_loop len
    (fun i bytes => <[i := ToUint8 (get 0 binaryString i)]> bytes)
    (replicate len 0).

(** [int16Array[i] / 32768.0] *)
Definition dequantize_sample (z : Z) : number := Fin (z # 32768).

Definition dequantize (int16Array : list Z) : list number :=
  let n := length int16Array in
  for_loop n
    (fun i float32Array =>
       <[i := dequantize_sample (get 0 int16Array i)]> float32Array)
    (replicate n (Fin 0)).

Definition base64ToFloat32Array (base64 : string) : option (list number) :=
  match Base64.atob base64 with
  | None => None
  | Some binaryString =>
      match Int16Array_of_buffer (bytes_of_binary binaryString) with
      | None => None
      | Some int16Array => Some (dequantize int16Array)
      end
  end.

End Audio.

(** ** The session of [src/components/InterviewSession.tsx] *)

Module Session.

Inductive role : Type := user | model.

Definition role_eqb (a b : role) : bool :=
  match a, b with
  | user, user | model, model => true
  | _, _ => false
  end.

(** An element of the [transcript] state: [{role, text}]. *)
Record entry : Type := Entry { entry_role : role; entry_text : string }.

(** Streams, audio contexts, nodes and sessions are opaque handles. *)
Definition handle : Type := nat.

(** The refs of the component ([useRef]); [null] is [None].  The source,
    gain and input analyser nodes, the canvas and the animation frame are
    left out: no handler below reads them. *)
Record Refs : Type := Build_Refs {
  connectionIdRef : string;
  isConnectedRef : bool;
  isMicOnRef : bool;
  isEndedRef : bool;
  activeSessionRef : option handle;
  streamRef : option handle;
  audioContextRef : option handle;
  outputAnalyserRef : option handle;
  inputAudioContextRef : option handle;
  processorRef : option handle;
  nextStartTimeRef : Q;
  transcriptTextRef : string
}.

Definition set_connectionIdRef (v : string) (r : Refs) : Refs :=
  let 'Build_Refs _ x1 x2 x3 x4 x5 x6 x7 x8 x9 x10 x11 := r in
  Build_Refs v x1 x2 x3 x4 x5 x6 x7 x8 x9 x10 x11.
Definition set_isConnectedRef (v : bool) (r : Refs) : Refs :=
  let 'Build_Refs x0 _ x2 x3 x4 x5 x6 x7 x8 x9 x10 x11 := r in
  Build_Refs x0 v x2 x3 x4 x5 x6 x7 x8 x9 x10 x11.
Definition set_isMicOnRef (v : bool) (r : Refs) : Refs :=
  let 'Build_Refs x0 x1 _ x3 x4 x5 x6 x7 x8 x9 x10 x11 := r in
  Build_Refs x0 x1 v x3 x4 x5 x6 x7 x8 x9 x10 x11.
Definition set_isEndedRef (v : bool) (r : Refs) : Refs :=
  let 'Build_Refs x0 x1 x2 _ x4 x5 x6 x7 x8 x9 x10 x11 := r in
  Build_Refs x0 x1 x2 v x4 x5 x6 x7 x8 x9 x10 x11.
Definition set_activeSessionRef (v : option handle) (r : Refs) : Refs :=
  let 'Build_Refs x0 x1 x2 x3 _ x5 x6 x7 x8 x9 x10 x11 := r in
  Build_Refs x0 x1 x2 x3 v x5 x6 x7 x8 x9 x10 x11.
Definition set_streamRef (v : option handle) (r : Refs) : Refs :=
  let 'Build_Refs x0 x1 x2 x3 x4 _ x6 x7 x8 x9 x10 x11 := r in
  Build_Refs x0 x1 x2 x3 x4 v x6 x7 x8 x9 x10 x11.
Definition set_audioContextRef (v : option handle) (r : Refs) : Refs :=
  let 'Build_Refs x0 x1 x2 x3 x4 x5 _ x7 x8 x9 x10 x11 := r in
  Build_Refs x0 x1 x2 x3 x4 x5 v x7 x8 x9 x10 x11.
Definition set_outputAnalyserRef (v : option handle) (r : Refs) : Refs :=
  let 'Build_Refs x0 x1 x2 x3 x4 x5 x6 _ x8 x9 x10 x11 := r in
  Build_Refs x0 x1 x2 x3 x4 x5 x6 v x8 x9 x10 x11.
Definition set_inputAudioContextRef (v : option handle) (r : Refs) : Refs :=
  let 'Build_Refs x0 x1 x2 x3 x4 x5 x6 x7 _ x9 x10 x11 := r in
  Build_Refs x0 x1 x2 x3 x4 x5 x6 x7 v x9 x10 x11.
Definition set_processorRef (v : option handle) (r : Refs) : Refs :=
  let 'Build_Refs x0 x1 x2 x3 x4 x5 x6 x7 x8 _ x10 x11 := r in
  Build_Refs x0 x1 x2 x3 x4 x5 x6 x7 x8 v x10 x11.
Definition set_nextStartTimeRef (v : Q) (r : Refs) : Refs :=
  let 'Build_Refs x0 x1 x2 x3 x4 x5 x6 x7 x8 x9 _ x11 := r in
  Build_Refs x0 x1 x2 x3 x4 x5 x6 x7 x8 x9 v x11.
Definition set_transcriptTextRef (v : string) (r : Refs) : Refs :=
  let 'Build_Refs x0 x1 x2 x3 x4 x5 x6 x7 x8 x9 x10 _ := r in
  Build_Refs x0 x1 x2 x3 x4 x5 x6 x7 x8 x9 x10 v.

(** The React state of the component ([useState]), and the interval of the
    countdown effect: whether it is installed, and the [transcript] of the
    render in which the effect ran.  The callback given to [setInterval]
    calls the [handleEndInterview] of that render, which closed over that
    [transcript]; the effect depends on [hasStarted] alone, so later
    renders do not replace the callback. *)
Record View : Type := Build_View {
  hasStarted : bool;
  isConnected : bool;
  timeLeft : Z;
  status : string;
  error : option string;
  transcript : list entry;
  timerRunning : bool;
  timerTranscript : list entry
}.

Definition set_hasStarted (v : bool) (r : View) : View :=
  let 'Build_View _ x1 x2 x3 x4 x5 x6 x7 := r in
  Build_View v x1 x2 x3 x4 x5 x6 x7.
Definition set_isConnected (v : bool) (r : View) : View :=
  let 'Build_View x0 _ x2 x3 x4 x5 x6 x7 := r in
  Build_View x0 v x2 x3 x4 x5 x6 x7.
Definition set_timeLeft (v : Z) (r : View) : View :=
  let 'Build_View x0 x1 _ x3 x4 x5 x6 x7 := r in
  Build_View x0 x1 v x3 x4 x5 x6 x7.
Definition set_status (v : string) (r : View) : View :=
  let 'Build_View x0 x1 x2 _ x4 x5 x6 x7 := r in
  Build_View x0 x1 x2 v x4 x5 x6 x7.
Definition set_error (v : option string) (r : View) : View :=
  let 'Build_View x0 x1 x2 x3 _ x5 x6 x7 := r in
  Build_View x0 x1 x2 x3 v x5 x6 x7.
Definition set_transcript (v : list entry) (r : View) : View :=
  let 'Build_View x0 x1 x2 x3 x4 _ x6 x7 := r in
  Build_View x0 x1 x2 x3 x4 v x6 x7.
Definition set_timerRunning (v : bool) (r : View) : View :=
  let 'Build_View x0 x1 x2 x3 x4 x5 _ x7 := r in
  Build_View x0 x1 x2 x3 x4 x5 v x7.
Definition set_timerTranscript (v : list entry) (r : View) : View :=
  let 'Build_View x0 x1 x2 x3 x4 x5 x6 _ := r in
  Build_View x0 x1 x2 x3 x4 x5 x6 v.

Record State : Type := Build_State { refs : Refs; view : View }.

Definition on_refs (f : Refs -> Refs) (s : State) : State :=
  Build_State (f (refs s)) (view s).
Definition on_view (f : View -> View) (s : State) : State :=
  Build_State (refs s) (f (view s)).

(** What a handler does to the outside world. *)
Inductive effect : Type :=
  | SourceStart (startTime : Q) (buffer : list number)
  | SendRealtimeInput (session : handle) (mimeType data : string)
  | StopTracks (stream : handle)
  | SessionClose (session : handle)
  | ContextClose (ctx : handle)
  | Disconnect (node : handle)
  | Console (what : string)
  | OnComplete (finalTranscript : string).

(** A computation returns or throws. *)
Inductive completion (A : Type) : Type :=
  | Normal (a : A)
  | Throw (e : string).
Arguments Normal {A} a.
Arguments Throw {A} e.

Local Open Scope string_scope.

(** *** Capture: [processorRef.current.onaudioprocess] *)

(** The double-precision operations the resampler uses.  Rates, lengths and
    indices are positive, so [Math.floor] yields a natural number. *)
Class Arith (D : Type) : Type := {
  d_of_Z : Z -> D;
  d_gt : D -> D -> bool;
  d_div : D -> D -> D;
  d_mul : D -> D -> D;
  d_floor : D -> nat
}.

(** The same operations computed exactly, on rationals. *)
#[export] Instance Arith_Q : Arith Q := {
  d_of_Z := inject_Z;
  d_gt a b := negb (Qle_bool a b);
  d_div := Qdiv;
  d_mul := Qmult;
  d_floor q := Z.to_nat (Qfloor q)
}.

Section Capture.
Context {D : Type} `{Arith D}.

(** The body of [if (inputSampleRate > 16000) { ... }]. *)
Definition downsample (inputSampleRate : D) (inputData : list number)
  : list number :=
  let ratio := d_div inputSampleRate (d_of_Z 16000) in
  let newLength :=
    d_floor (d_div (d_of_Z (Z.of_nat (length inputData))) ratio) in
  for_loop newLength
    (fun i downsampled =>
       <[i := get NaN inputData
                (d_floor (d_mul (d_of_Z (Z.of_nat i)) ratio))]> downsampled)
    (replicate newLength (Fin 0)).

Definition processingData (inputSampleRate : D) (inputData : list number)
  : list number :=
  if d_gt inputSampleRate (d_of_Z 16000)
  then downsample inputSampleRate inputData
  else inputData.

(** [send] is the session's [sendRealtimeInput]: it returns or throws. *)
Definition onaudioprocess (currentConnectionId : string) (inputSampleRate : D)
    (send : string -> string -> completion unit)
    (inputData : list number) (s : State)
  : completion (State * list effect) :=
  let r := refs s in
  if negb (String.eqb (connectionIdRef r) currentConnectionId)
     || negb (isConnectedRef r) || negb (isMicOnRef r)
  then Normal (s, [])
  else
    match activeSessionRef r with
    | None => Normal (s, [])
    | Some session =>
        match Audio.float32ArrayToBase64
                (processingData inputSampleRate inputData) with
        | None => Throw "InvalidCharacterError"
        | Some base64Data =>
            let sent :=
              [SendRealtimeInput session "audio/pcm;rate=16000" base64Data] in
            match send "audio/pcm;rate=16000" base64Data with
            | Normal _ => Normal (s, sent)
            | Throw _ => Normal (s, sent)
            end
        end
    end.

End Capture.

(** *** Playback and transcript: the [onmessage] callback *)

(** The fields of a [LiveServerMessage] the handler reads; an absent link
    of an optional chain is [None]. *)
Record LiveServerMessage : Type := Message {
  audioData : option string;
  inputTranscription : option string;
  outputTranscription : option string
}.

(** [if (x)] on an optional string: absent and empty are both falsy. *)
Definition truthy (x : option string) : option string :=
  match x with
  | Some "" => None
  | Some t => Some t
  | None => None
  end.

(** [decodeAudioData]: [createBuffer] rejects a length of zero frames. *)
Definition decodeAudioData (base64 : string) : completion (list number) :=
  match Audio.base64ToFloat32Array base64 with
  | None => Throw "decode"
  | Some float32Data =>
      if (length float32Data =? 0)%nat then Throw "NotSupportedError"
      else Normal float32Data
  end.

(** Times on the output timeline ([ctx.currentTime], [buffer.duration],
    [nextStartTimeRef.current]) are doubles, each modelled by the rational
    it denotes.  [round q] is the double nearest to the real number [q]: a
    sum or a quotient of doubles is the rounding of the exact one.  The
    rounding is kept abstract; all that is assumed of it is that it is
    monotone, as rounding to nearest is.  Times that overflow the doubles
    have no rational value and are outside the model. *)
Class Rounding : Type := {
  round : Q -> Q;
  round_le : forall x y : Q, (x <= y)%Q -> (round x <= round y)%Q
}.

Section Playback.
Context `{Rounding}.

(** [buffer.duration] of a buffer created at 24000 Hz: its length divided
    by the sample rate, as a double. *)
Definition duration (buffer : list number) : Q :=
  round (inject_Z (Z.of_nat (length buffer)) / 24000).

(** [startTime = Math.max(now, nextStartTimeRef.current)] and the new value
    of [nextStartTimeRef.current], [startTime + buffer.duration]. *)
Definition schedule (now dur nextStartTime : Q) : Q * Q :=
  let startTime := Qmax now nextStartTime in
  (startTime, round (startTime + dur)).

Definition play_audio (now : Q) (message : LiveServerMessage) (s : State)
  : completion (State * list effect) :=
  match truthy (audioData message),
        audioContextRef (refs s), outputAnalyserRef (refs s) with
  | Some data, Some _, Some _ =>
      match decodeAudioData data with
      | Throw e => Throw e
      | Normal buffer =>
          let '(startTime, next) :=
            schedule now (duration buffer) (nextStartTimeRef (refs s)) in
          Normal (on_refs (set_nextStartTimeRef next) s,
                  [SourceStart startTime buffer])
      end
  | _, _, _ => Normal (s, [])
  end.

End Playback.

(** The updater passed to [setTranscript] for a fragment of role [r]. *)
Definition merge (r : role) (fragment : string) (prev : list entry)
  : list entry :=
  match last prev with
  | Some l =>
      if role_eqb (entry_role l) r
      then take (length prev - 1) prev
             ++ [Entry (entry_role l) (entry_text l ++ fragment)]
      else prev ++ [Entry r fragment]
  | None => prev ++ [Entry r fragment]
  end.

Definition transcribe (r : role) (field : option string) (s : State) : State :=
  match truthy field with
  | Some t =>
      on_view (fun v => set_transcript (merge r t (transcript v)) v)
        (on_refs (fun f => set_transcriptTextRef (transcriptTextRef f ++ t) f)
           s)
  | None => s
  end.

(** [now] is [ctx.currentTime] when the buffer is scheduled.  The handler
    awaits [decodeAudioData], which has no suspension point of its own: it
    is taken to run to its end with no other handler in between.  An
    exception anywhere in the [try] block abandons the rest of the block,
    the transcriptions included. *)
Definition onmessage `{Rounding} (currentConnectionId : string) (now : Q)
    (message : LiveServerMessage) (s : State) : State * list effect :=
  if negb (String.eqb (connectionIdRef (refs s)) currentConnectionId)
  then (s, [])
  else
    match play_audio now message s with
    | Throw _ => (s, [Console "Error processing message:"])
    | Normal (s1, played) =>
        (transcribe model (outputTranscription message)
           (transcribe user (inputTranscription message) s1),
         played)
    end.

(** *** The channel callbacks [onopen], [onclose], [onerror] *)

Definition onopen (currentConnectionId : string) (s : State)
  : State * list effect :=
  if String.eqb (connectionIdRef (refs s)) currentConnectionId then
    (on_view (fun v => set_status "Interview in Progress"
                         (set_isConnected true v))
       (on_refs (set_isConnectedRef true) s),
     [Console "Connected"])
  else (s, []).

Definition onclose (currentConnectionId : string) (s : State)
  : State * list effect :=
  if String.eqb (connectionIdRef (refs s)) currentConnectionId then
    (on_view (set_isConnected false) (on_refs (set_isConnectedRef false) s),
     [Console "Session closed"])
  else (s, []).

Definition onerror (currentConnectionId : string) (s : State)
  : State * list effect :=
  if String.eqb (connectionIdRef (refs s)) currentConnectionId then
    (on_view (fun v =>
                set_error
                  (Some "Connection interrupted. Please try restarting.")
                  (set_isConnected false v))
       (on_refs (set_isConnectedRef false) s),
     [Console "Session Error"])
  else (s, []).

(** *** [cleanupAudio] *)

Definition release (what : handle -> effect) (r : option handle)
  : list effect :=
  match r with
  | Some h => [what h]
  | None => []
  end.

Definition cleanupAudio (s : State) : State * list effect :=
  let r := refs s in
  (on_refs (fun r =>
      set_processorRef None
        (set_audioContextRef None
           (set_inputAudioContextRef None
              (set_streamRef None
                 (set_isConnectedRef false
                    (set_activeSessionRef None
                       (set_connectionIdRef "" r))))))) s,
   (release SessionClose (activeSessionRef r)
      ++ release StopTracks (streamRef r)
      ++ release ContextClose (inputAudioContextRef r)
      ++ release ContextClose (audioContextRef r)
      ++ release Disconnect (processorRef r))%list).

(** *** [startSession]: what runs after each of its two awaits

    [startSession] mints [currentConnectionId], awaits
    [getUserMedia], builds the audio graph, and awaits [live.connect].  The
    contexts are taken to be running, so the two conditional [resume()]
    awaits are not taken. *)

(** After [await navigator.mediaDevices.getUserMedia(...)] resolved with
    [stream]; the other handles are the objects the continuation creates. *)
Definition after_getUserMedia (currentConnectionId : string)
    (stream outputCtx outputAnalyser inputCtx processor : handle) (s : State)
  : State * list effect :=
  if negb (String.eqb (connectionIdRef (refs s)) currentConnectionId)
  then (s, [StopTracks stream])
  else
    (on_view (fun v => set_hasStarted true (set_status "Connecting to AI..." v))
       (on_refs (fun r =>
          set_processorRef (Some processor)
            (set_inputAudioContextRef (Some inputCtx)
               (set_outputAnalyserRef (Some outputAnalyser)
                  (set_audioContextRef (Some outputCtx)
                     (set_streamRef (Some stream) r))))) s),
     []).

(** After [await aiRef.current.live.connect(config)] resolved. *)
Definition after_connect (currentConnectionId : string) (session : handle)
    (s : State) : State * list effect :=
  if String.eqb (connectionIdRef (refs s)) currentConnectionId
  then (on_refs (set_activeSessionRef (Some session)) s, [])
  else (s, [SessionClose session]).

(** The [catch] block: either await rejected with [message]. *)
Definition start_failed (currentConnectionId : string) (message : string)
    (s : State) : State * list effect :=
  if String.eqb (connectionIdRef (refs s)) currentConnectionId then
    let s1 :=
      on_view (fun v =>
                 set_error (Some ("Failed to start session. " ++ message))
                   (set_hasStarted false v)) s in
    let '(s2, released) := cleanupAudio s1 in
    (s2, Console "Init Error:" :: released)
  else (s, [Console "Init Error:"]).

(** The state of a freshly mounted component: the initial values of its
    [useState] and [useRef] calls, for an interview of [minutes]. *)
Definition initial (minutes : Z) : State :=
  Build_State
    (Build_Refs "" false true false None None None None None None 0%Q "")
    (Build_View false false (minutes * 60)%Z "" None [] false []).

(** The synchronous start of [startSession], up to the request for the
    microphone: [currentConnectionId] is [Date.now().toString()]. *)
Definition begin_session (currentConnectionId : string) (minutes : Z)
    (s : State) : State * list effect :=
  let s0 := on_view (fun v => set_status "Initializing..." (set_error None v))
              s in
  let '(s1, released) := cleanupAudio s0 in
  (on_view (fun v =>
      set_status "Requesting microphone..."
        (set_timeLeft (minutes * 60)%Z
           (set_isConnected false (set_transcript [] v))))
     (on_refs (fun r =>
        set_transcriptTextRef ""
          (set_nextStartTimeRef 0%Q
             (set_isConnectedRef false
                (set_isEndedRef false
                   (set_connectionIdRef currentConnectionId r))))) s1),
   released).

(** *** Ending: [handleEndInterview] and the countdown *)

Definition role_label (r : role) : string :=
  match r with
  | user => "Candidate"
  | model => "Interviewer"
  end.

Definition line (t : entry) : string :=
  role_label (entry_role t) ++ ": " ++ entry_text t.

Definition newline : string := String (ascii_of_nat 10) "".

(** [a || b] on strings. *)
Definition or_else (a b : string) : string :=
  match a with
  | "" => b
  | _ => a
  end.

(** [transcript.map(...).join('\n\n') || transcriptTextRef.current
     || "No transcript available."] *)
Definition finalTranscript (transcript : list entry) (transcriptText : string)
  : string :=
  or_else
    (or_else (String.concat (newline ++ newline) (map line transcript))
       transcriptText)
    "No transcript available.".

(** [transcript] is the log captured by the closure that is called; the
    call of [onComplete] is the one the one-second timeout makes. *)
Definition handleEndInterview (transcript : list entry) (s : State)
  : State * list effect :=
  if isEndedRef (refs s) then (s, [])
  else
    let s1 :=
      on_view (set_status "Finalizing...") (on_refs (set_isEndedRef true) s) in
    let '(s2, released) := cleanupAudio s1 in
    let s3 := on_view (set_isConnected false) s2 in
    (s3,
     (released
        ++ [OnComplete
              (finalTranscript transcript (transcriptTextRef (refs s3)))])%list).

(** The effect [useEffect(..., [hasStarted])]: when the session has started
    and is not ended it installs the interval, whose callback keeps the
    [handleEndInterview] of the render the effect runs in, and with it the
    [transcript] of that render. *)
Definition countdown_effect (s : State) : State :=
  if hasStarted (view s) && negb (isEndedRef (refs s))
  then on_view (fun v => set_timerTranscript (transcript v)
                           (set_timerRunning true v)) s
  else s.

(** Its cleanup, [clearInterval(interval)]. *)
Definition countdown_cleanup (s : State) : State :=
  on_view (set_timerRunning false) s.

(** What React does after a handler took the component from [before] to
    [after]: the effect depends on [hasStarted] alone, so its cleanup and
    the effect itself run only when that value changed. *)
Definition rerender (before after : State) : State :=
  if Bool.eqb (hasStarted (view before)) (hasStarted (view after))
  then after
  else countdown_effect (countdown_cleanup after).

(** One firing of the interval: the updater passed to [setTimeLeft].
    [transcript] is the log the interval's callback closed over. *)
Definition tick (transcript : list entry) (s : State) : State * list effect :=
  if timerRunning (view s) then
    if (timeLeft (view s) <=? 1)%Z then
      let s1 := on_view (set_timerRunning false) s in
      let '(s2, effects) := handleEndInterview transcript s1 in
      (on_view (set_timeLeft 0) s2, effects)
    else (on_view (set_timeLeft (timeLeft (view s) - 1)%Z) s, [])
  else (s, []).

(** [handleInterviewComplete] of the application: what it passes on to
    [generateInterviewReport]. *)
Definition report_input (transcript : string) : string :=
  or_else transcript "No conversation recorded.".

Definition is_completion (e : effect) : bool :=
  match e with
  | OnComplete _ => true
  | _ => false
  end.

Definition completions (es : list effect) : list effect :=
  List.filter is_completion es.

End Session.

(** ** The types of [types.ts] *)

Module Types.

Record ResumeAnalysis : Type := Build_ResumeAnalysis {
  atsScore : number;
  skills : list string;
  experienceSummary : string;
  strengths : list string;
  gaps : list string;
  missingInfo : list string;
  improvements : list string
}.

Record InterviewReport : Type := Build_InterviewReport {
  communicationScore : number;
  confidenceScore : number;
  fluencyScore : number;
  resumeQualityScore : number;
  finalAtsScore : number;
  jobSuggestions : list string;
  skillRoadmap : list string;
  feedbackSummary : string
}.

Inductive AppStep : Type :=
  | UPLOAD
  | ANALYSIS
  | DURATION_SELECT
  | INTERVIEW
  | REPORT.

(** [type InterviewDuration = 3 | 5] *)
Inductive InterviewDuration : Type := Three | Five.

End Types.

(** ** The requests of [services/gemini.ts] *)

Module Gemini.

Import Session Types.
Local Open Scope string_scope.

(** An element of [contents.parts]. *)
Inductive part : Type :=
  | TextPart (text : string)
  | InlineData (data mimeType : string).

Definition analysis_prompt_head : string := "
    Analyze this resume provided below. 
    Extract the following details and return them in JSON format:
    1. ATS Score (0-100 based on keyword density, formatting, and clarity).
    2. Key Skills (array of strings).
    3. Experience Summary (concise paragraph).
    4. Strengths (array of strings).
    5. Gaps or Weaknesses (array of strings).
    6. Missing Information (what crucial details are absent?).
    7. 5 Specific Improvement Points.

    Resume Content:
    ".

Definition analysis_prompt_tail : string := "
  ".

Definition report_prompt_1 : string := "
    You are a Senior HR Analytics Manager. Based on the following interview transcript and the candidate's initial resume analysis, generate a comprehensive performance report in JSON.

    Initial Analysis Context:
    ATS Score: ".

Definition report_prompt_2 : string := "
    Strengths: ".

Definition report_prompt_3 : string := "

    Interview Transcript:
    ".

Definition report_prompt_4 : string := "

    Required Output (JSON):
    1. Communication Skill Score (0-100).
    2. Confidence Score (0-100).
    3. Fluency Score (0-100).
    4. Resume Quality Score (0-100, re-evaluated after interview).
    5. Final ATS Score (0-100).
    6. Job & Career Suggestions (3-5 specific roles).
    7. Skill Improvement Roadmap (step-by-step list).
    8. Feedback Summary (concise paragraph on performance).
  ".

(** The template literal of [analyzeResume]. *)
Definition analysis_prompt (text : string) : string :=
  analysis_prompt_head
    ++ or_else text "[See attached file]"
    ++ analysis_prompt_tail.

(** [parts], as [analyzeResume] builds it: the attachment is pushed when
    both [fileData] and [mimeType] are truthy. *)
Definition analysis_parts (text : string) (fileData mimeType : option string)
  : list part :=
  TextPart (analysis_prompt text)
    :: match truthy fileData, truthy mimeType with
       | Some data, Some type => [InlineData data type]
       | _, _ => []
       end.

Section Service.
Context {A : Type}.

(** [generateContent] is the call to the model: it throws, or returns a
    response whose [text] may be absent.  [parse] is [JSON.parse] followed
    by the cast to the result type, which checks nothing: the text may
    denote [null] (or another falsy value, which the application cannot
    tell from [null]: it only tests the result for truthiness), here
    [None]; a truthy value is taken to have the shape the request's
    [responseSchema] asks for.  [show] prints a number in a template
    literal. *)
Variable generateContent : list part -> completion (option string).
Variable parse : string -> completion (option A).
Variable show : number -> string.

(** The end of both requests: [if (response.text) return JSON.parse(...)],
    else [throw new Error(failure)]. *)
Definition respond (failure : string) (parts : list part)
  : completion (option A) :=
  match generateContent parts with
  | Throw e => Throw e
  | Normal text =>
      match truthy text with
      | Some t => parse t
      | None => Throw failure
      end
  end.

Definition analyzeResume (text : string) (fileData mimeType : option string)
  : completion (option A) :=
  respond "Failed to analyze resume" (analysis_parts text fileData mimeType).

Definition report_prompt (transcript : string)
    (initialAnalysis : ResumeAnalysis) : string :=
  report_prompt_1 ++ show (atsScore initialAnalysis)
    ++ report_prompt_2 ++ String.concat ", " (strengths initialAnalysis)
    ++ report_prompt_3 ++ transcript
    ++ report_prompt_4.

Definition generateInterviewReport (transcript : string)
    (initialAnalysis : ResumeAnalysis) : completion (option A) :=
  respond "Failed to generate report"
    [TextPart (report_prompt transcript initialAnalysis)].

End Service.

End Gemini.

(** ** The application of [App.tsx] *)

Module App.

Import Session Types.
Local Open Scope string_scope.

Record State : Type := Build_State {
  step : AppStep;
  analysis : option ResumeAnalysis;
  duration : InterviewDuration;
  report : option InterviewReport;
  transcriptData : string;
  isLoading : bool;
  error : option string
}.

(** The initial values of the [useState] calls. *)
Definition initial : State :=
  Build_State UPLOAD None Three None "" false None.

Section Handlers.

(** The two calls of [services/gemini.ts], as the application sees them:
    each throws, or returns what [JSON.parse] gave, which may be [null]. *)
Variable analyzeResume :
  string -> option string -> option string
  -> completion (option ResumeAnalysis).
Variable generateInterviewReport :
  string -> ResumeAnalysis -> completion (option InterviewReport).

(** Each handler is taken from its call to the end of its [finally]
    block, the awaited call included. *)
Definition handleAnalyze (text : string) (imageData mimeType : option string)
    (a : State) : State :=
  match analyzeResume text imageData mimeType with
  | Normal result =>
      Build_State ANALYSIS result (duration a) (report a)
        (transcriptData a) false None
  | Throw _ =>
      Build_State (step a) (analysis a) (duration a) (report a)
        (transcriptData a) false
        (Some ("Unable to analyze resume. "
                 ++ "Please try again or use a clearer image/text."))
  end.

Definition handleDurationSelect (dur : InterviewDuration) (a : State)
  : State :=
  Build_State INTERVIEW (analysis a) dur (report a) (transcriptData a)
    (isLoading a) (error a).

(** [onContinue] of the analysis view. *)
Definition onContinue (a : State) : State :=
  Build_State DURATION_SELECT (analysis a) (duration a) (report a)
    (transcriptData a) (isLoading a) (error a).

Definition handleInterviewComplete (transcript : string) (a : State)
  : State :=
  match analysis a with
  | None => a
  | Some initialAnalysis =>
      match generateInterviewReport (report_input transcript)
              initialAnalysis with
      | Normal result =>
          Build_State REPORT (analysis a) (duration a) result
            transcript false (error a)
      | Throw _ =>
          Build_State REPORT (analysis a) (duration a) (report a)
            transcript false (Some "Failed to generate report.")
      end
  end.

Definition handleRestart (a : State) : State :=
  Build_State UPLOAD None (duration a) None "" (isLoading a) None.

(** What the user, or the interview session, can trigger. *)
Inductive event : Type :=
  | Analyze (text : string) (imageData mimeType : option string)
  | Continue
  | SelectDuration (dur : InterviewDuration)
  | InterviewDone (transcript : string)
  | Restart.

Definition is_step (x y : AppStep) : bool :=
  match x, y with
  | UPLOAD, UPLOAD | ANALYSIS, ANALYSIS | DURATION_SELECT, DURATION_SELECT
  | INTERVIEW, INTERVIEW | REPORT, REPORT => true
  | _, _ => false
  end.

Definition present {A : Type} (x : option A) : bool :=
  match x with
  | Some _ => true
  | None => false
  end.

(** The conditions under which the JSX renders the element that triggers
    an event: the uploader on the upload step (its inputs only when not
    loading), the analysis view and the session only with an analysis, and
    the report view, which holds the restart button, only with a report. *)
Definition rendered (e : event) (a : State) : bool :=
  match e with
  | Analyze _ _ _ => is_step (step a) UPLOAD && negb (isLoading a)
  | Continue => is_step (step a) ANALYSIS && present (analysis a)
  | SelectDuration _ => is_step (step a) DURATION_SELECT
  | InterviewDone _ => is_step (step a) INTERVIEW && present (analysis a)
  | Restart => is_step (step a) REPORT && present (report a)
  end.

Definition handle (e : event) (a : State) : State :=
  match e with
  | Analyze text imageData mimeType => handleAnalyze text imageData mimeType a
  | Continue => onContinue a
  | SelectDuration dur => handleDurationSelect dur a
  | InterviewDone transcript => handleInterviewComplete transcript a
  | Restart => handleRestart a
  end.

Definition dispatch (a : State) (e : event) : State :=
  if rendered e a then handle e a else a.

Definition run (events : list event) (a : State) : State :=
  fold_left dispatch events a.

End Handlers.

End App.

(** ** The uploader of [ResumeUploader.tsx] *)

Module ResumeUploader.

Local Open Scope string_scope.

(** [s.split(sep)] for a separator of one character: the segments between
    its occurrences. *)
Fixpoint split (sep : ascii) (s : string) : list string :=
  match s with
  | "" => [""]
  | String c rest =>
      if Ascii.eqb c sep then "" :: split sep rest
      else
        match split sep rest with
        | first :: others => String c first :: others
        | [] => [String c ""]
        end
  end.

(** The arguments [handleFileUpload] passes to [onAnalyze] once the reader
    has loaded the file as the data URL [result]: an empty text, the
    segment after the first comma, and the type of the file. *)
Definition handleFileUpload (result fileType : string)
  : string * option string * option string :=
  ("", split ","%char result !! 1%nat, Some fileType).

(** The data URL [readAsDataURL] produces for a payload in base64. *)
Definition dataURL (fileType payload : string) : string :=
  "data:" ++ fileType ++ ";base64," ++ payload.

End ResumeUploader.

(** ** The report view of [ReportView.tsx] *)

Module ReportView.

Import Session Types.
Local Open Scope string_scope.

Record SavedReport : Type := Build_SavedReport {
  id : Z;
  date : string;
  saved_report : InterviewReport;
  saved_transcript : string
}.

(** The state of the component, and the item [interview_reports] of
    [localStorage]. *)
Record State : Type := Build_State {
  currentReport : InterviewReport;
  currentTranscript : option string;
  savedReports : list SavedReport;
  isHistoryOpen : bool;
  loadedId : option Z;
  saved : bool;
  stored : option string
}.

Section Handlers.

(** [JSON.stringify] and [JSON.parse] on the list of saved reports. *)
Variable stringify : list SavedReport -> string.
Variable parse : string -> completion (list SavedReport).


(** The effect that follows a change of the props. *)
Definition propsChanged (report : InterviewReport)
    (transcript : option string) (s : State) : State :=
  Build_State report transcript (savedReports s) (isHistoryOpen s) None false
    (stored s).

(** [now] is [Date.now()] and [iso] is [new Date().toISOString()]. *)
Definition handleSave (now : Z) (iso : string) (s : State) : State :=
  let newReport :=
    Build_SavedReport now iso (currentReport s)
      (or_else (default "" (currentTranscript s)) "") in
  let updatedReports := newReport :: savedReports s in
  Build_State (currentReport s) (currentTranscript s) updatedReports
    (isHistoryOpen s) (Some now) true (Some (stringify updatedReports)).

Definition handleDelete (i : Z) (s : State) : State :=
  let updatedReports :=
    List.filter (fun r => negb (id r =? i)%Z) (savedReports s) in
  Build_State (currentReport s) (currentTranscript s) updatedReports
    (isHistoryOpen s)
    match loadedId s with
    | Some l => if (l =? i)%Z then None else Some l
    | None => None
    end
    (saved s) (Some (stringify updatedReports)).

Definition handleLoad (item : SavedReport) (s : State) : State :=
  Build_State (saved_report item) (Some (saved_transcript item))
    (savedReports s) false (Some (id item)) (saved s) (stored s).

(** What the user can trigger; an entry of the history is named by its
    position in the list. *)
Inductive event : Type :=
  | Save (now : Z) (iso : string)
  | Delete (position : nat)
  | Load (position : nat)
  | OpenHistory
  | CloseHistory
  | SaveStatusTimeout
  | PropsChanged (report : InterviewReport) (transcript : option string).

Definition setIsHistoryOpen (open : bool) (s : State) : State :=
  Build_State (currentReport s) (currentTranscript s) (savedReports s) open
    (loadedId s) (saved s) (stored s).

Definition setSaveStatusIdle (s : State) : State :=
  Build_State (currentReport s) (currentTranscript s) (savedReports s)
    (isHistoryOpen s) (loadedId s) false (stored s).

(** The save button is disabled while a saved report is loaded, and the
    entries, with their delete buttons, are rendered only while the history
    is open. *)
Definition dispatch (s : State) (e : event) : State :=
  match e with
  | Save now iso =>
      match loadedId s with
      | None => handleSave now iso s
      | Some _ => s
      end
  | Delete position =>
      match isHistoryOpen s, savedReports s !! position with
      | true, Some item => handleDelete (id item) s
      | _, _ => s
      end
  | Load position =>
      match isHistoryOpen s, savedReports s !! position with
      | true, Some item => handleLoad item s
      | _, _ => s
      end
  | OpenHistory => setIsHistoryOpen true s
  | CloseHistory => setIsHistoryOpen false s
  | SaveStatusTimeout => setSaveStatusIdle s
  | PropsChanged report transcript => propsChanged report transcript s
  end.

Definition run (events : list event) (s : State) : State :=
  fold_left dispatch events s.


End Handlers.

End ReportView.

(** ** The rest of the session component *)

Module SessionView.

Import Session.
Local Open Scope string_scope.

(** The numbers of the component are doubles.  An integer is a double,
    and printed digit by digit, up to [Number.MAX_SAFE_INTEGER]; among
    such integers [Math.floor(a / 60)] and [a % 60] are exact. *)
Definition MAX_SAFE_INTEGER : Z := 9007199254740991.

Definition safe_integer (n : Z) : bool := (Z.abs n <=? MAX_SAFE_INTEGER)%Z.

(** [n.toString()] of a safe integer. *)
Definition toString (n : Z) : string := NilEmpty.string_of_int (Z.to_int n).

(** [padString] repeated and cut to [n] characters. *)
Definition filler (n : nat) (padString : string) : string :=
  substring 0 n (String.concat "" (repeat padString n)).

(** [s.padStart(targetLength, padString)] *)
Definition padStart (targetLength : nat) (padString s : string) : string :=
  if (targetLength <=? String.length s)%nat then s
  else
    match padString with
    | "" => s
    | _ => filler (targetLength - String.length s) padString ++ s
    end.

(** [formatTime] of a safe integer: [Math.floor(seconds / 60)] is the
    floor quotient and [seconds % 60] the remainder with the sign of
    [seconds].  Other numbers (a fraction, an integer beyond the safe
    ones, where the quotient rounds and, from 1e21 on, the digits give way
    to the exponent form) are not modelled: [None]. *)
Definition formatTime (seconds : Z) : option string :=
  if safe_integer seconds then
    let m := (seconds / 60)%Z in
    let s := Z.rem seconds 60 in
    Some (toString m ++ ":" ++ padStart 2 "0" (toString s))
  else None.

(** The effect [isMicOnRef.current = isMicOn], run when [isMicOn]
    changes. *)
Definition sync_mic (isMicOn : bool) (s : State) : State :=
  on_refs (set_isMicOnRef isMicOn) s.

End SessionView.

(** ** The component as a whole *)

Module Component.

Import Session SessionView.
Local Open Scope string_scope.

Section Events.
Context {D : Type} `{Arith D} `{Rounding}.

(** What can happen to a mounted component.  A click on a start button
    mints the token [Date.now().toString()]; the continuations of that
    [startSession] and the callbacks it hands to the processor and to the
    channel carry that token, and are named here by the time [started] of
    their start. *)
Inductive event : Type :=
  | StartClicked (now : Z)
  | GetUserMediaResolved (started : Z)
      (stream outputCtx outputAnalyser inputCtx processor : handle)
  | ConnectResolved (started : Z) (session : handle)
  | StartRejected (started : Z) (message : string)
  | ChannelOpened (started : Z)
  | MessageReceived (started : Z) (now : Q) (message : LiveServerMessage)
  | ChannelClosed (started : Z)
  | ChannelFailed (started : Z)
  | BlockCaptured (started : Z) (inputSampleRate : D)
      (send : string -> string -> completion unit) (inputData : list number)
  | IntervalFired
  | EndClicked
  | MicClicked.

(** The start screen is rendered while [hasStarted] is false: its retry
    button when [error] is truthy, and its main button, which is disabled
    when [!!status && !error]. *)
Definition start_enabled (s : State) : bool :=
  negb (hasStarted (view s))
  && (match truthy (error (view s)) with Some _ => true | None => false end
      || match truthy (Some (status (view s))) with
         | Some _ => false
         | None => true
         end).

(** The handler an event runs.  The session screen, with the end button
    and the microphone button (disabled while [!isConnected]), is rendered
    once [hasStarted] is true.  The processor's and the channel's
    callbacks are created, and [live.connect] is called, by the
    continuation that sets [hasStarted]: none of them runs before (two
    starts of one component are taken to get different tokens, so that a
    callback of an earlier start is stale).  The interval calls the
    [handleEndInterview] it closed over, the end button the one of the
    current render. *)
Definition handler (minutes : Z) (e : event) (s : State)
  : State * list effect :=
  match e with
  | StartClicked now =>
      if start_enabled s then begin_session (toString now) minutes s
      else (s, [])
  | GetUserMediaResolved started stream outputCtx outputAnalyser inputCtx
      processor =>
      after_getUserMedia (toString started) stream outputCtx outputAnalyser
        inputCtx processor s
  | ConnectResolved started session =>
      if hasStarted (view s) then after_connect (toString started) session s
      else (s, [])
  | StartRejected started message => start_failed (toString started) message s
  | ChannelOpened started =>
      if hasStarted (view s) then onopen (toString started) s else (s, [])
  | MessageReceived started now message =>
      if hasStarted (view s) then onmessage (toString started) now message s
      else (s, [])
  | ChannelClosed started =>
      if hasStarted (view s) then onclose (toString started) s else (s, [])
  | ChannelFailed started =>
      if hasStarted (view s) then onerror (toString started) s else (s, [])
  | BlockCaptured started inputSampleRate send inputData =>
      if hasStarted (view s) then
        match onaudioprocess (toString started) inputSampleRate send
                inputData s with
        | Normal result => result
        | Throw _ => (s, [])
        end
      else (s, [])
  | IntervalFired => tick (timerTranscript (view s)) s
  | EndClicked =>
      if hasStarted (view s) then handleEndInterview (transcript (view s)) s
      else (s, [])
  | MicClicked =>
      if hasStarted (view s) && isConnected (view s)
      then (sync_mic (negb (isMicOnRef (refs s))) s, [])
      else (s, [])
  end.

(** An event, with the render and the effects that follow it. *)
Definition step (minutes : Z) (e : event) (s : State)
  : State * list effect :=
  let '(s1, effects) := handler minutes e s in
  (rerender s s1, effects).

Fixpoint run (minutes : Z) (events : list event) (s : State)
  : State * list effect :=
  match events with
  | [] => (s, [])
  | e :: rest =>
      let '(s1, e1) := step minutes e s in
      let '(s2, e2) := run minutes rest s1 in
      (s2, (e1 ++ e2)%list)
  end.

End Events.

End Component.

(** * The vocabulary of the claims *)

Import Session.

(** ** Bytes, sextets and 16-bit integers *)

Definition byte (b : Z) : Prop := 0 <= b < 256.
Definition sextet (s : Z) : Prop := 0 <= s < 64.

(** One character of the alphabet: it decodes to its own index, and is
    neither whitespace nor the padding character. *)
Definition alphabet_ok (n : nat) : bool :=
  let s := Z.of_nat n in
  let c := Base64.b64_char s in
  match Base64.b64_index c with
  | Some s' => s' =? s
  | None => false
  end
  && negb (Base64.is_whitespace c)
  && negb (Ascii.eqb c Base64.pad).

Definition int16 (z : Z) : Prop := -32768 <= z <= 32767.

(** ** Quantization, as the specification words it *)

Module Spec.

(** Clamping to [-1,1]; [NaN] has no place in the interval and stays. *)
Definition clamp (x : number) : number :=
  match x with
  | NaN => NaN
  | PInf => Fin 1
  | NInf => Fin (-1)
  | Fin q =>
      Fin (if Qsign_neg (q - -1) then -1
           else if Qsign_neg (1 - q) then 1 else q)%Q
  end.

(** A clamped negative sample is scaled by 32768, a non-negative one by
    32767, and the product is truncated to an integer; a sample that is
    not a number is stored as 0. *)
Definition stored_int16 (x : number) : Z :=
  match clamp x with
  | Fin s => Qtrunc (if Qsign_neg s then s * 32768 else s * 32767)%Q
  | _ => 0
  end.

End Spec.

(** A finite sample of [-1,1]. *)
Definition unit_sample (x : number) : Prop :=
  exists q, x = Fin q /\ (-1 <= q <= 1)%Q.

(** Encoding then decoding [data] succeeds, keeps the length, and relates
    every source sample to the decoded one by [bound]. *)
Definition roundtrip (bound : Q -> Q -> Prop) (data : list number) : Prop :=
  exists base64 decoded,
    Audio.float32ArrayToBase64 data = Some base64
    /\ Audio.base64ToFloat32Array base64 = Some decoded
    /\ length decoded = length data
    /\ forall i q, data !! i = Some (Fin q) ->
         exists q', decoded !! i = Some (Fin q') /\ bound q q'.

Definition within (eps q q' : Q) : Prop := (Qabs (q' - q) <= eps)%Q.

Definition strictly_within (eps q q' : Q) : Prop := (Qabs (q' - q) < eps)%Q.

(** What the decoder can return on encoder output. *)
Definition decoded_sample (x : number) : Prop :=
  exists q, x = Fin q /\ (-1 <= q <= 32767 # 32768)%Q.

(** ** The playback schedule *)

Module Playback.

Section Schedule.
Context `{Rounding}.









End Schedule.

(** The times passed to [source.start] in a trace. *)
Definition start_times (es : list effect) : list Q :=
  flat_map (fun e => match e with
                     | SourceStart startTime _ => [startTime]
                     | _ => []
                     end) es.

End Playback.

(** ** The transcript log *)

Module Transcript.

(** The log after the handler saw [field] for role [r]. *)
Definition log_after (r : role) (field : option string) (log : list entry)
  : list entry :=
  match truthy field with
  | Some t => merge r t log
  | None => log
  end.

(** A fragment is a role and a text. *)
Definition fragment : Type := (role * string)%type.

Definition receive (log : list entry) (f : fragment) : list entry :=
  log_after (fst f) (Some (snd f)) log.

(** The log built from the empty one, as [startSession] leaves it. *)
Definition aggregate (fragments : list fragment) : list entry :=
  fold_left receive fragments [].

(** The rule of the specification: append to the most recent entry when it
    has the fragment's role, push a new entry otherwise. *)
Definition rule (r : role) (text : string) (log : list entry) : list entry :=
  match last log with
  | Some l =>
      if role_eqb (entry_role l) r
      then removelast log ++ [Entry r (entry_text l ++ text)]
      else log ++ [Entry r text]
  | None => log ++ [Entry r text]
  end.

Fixpoint no_adjacent (rs : list role) : Prop :=
  match rs with
  | a :: (b :: _) as rest => a <> b /\ no_adjacent rest
  | _ => True
  end.

(** No two adjacent entries have the same role. *)
Definition alternating (log : list entry) : Prop :=
  forall i a b, log !! i = Some a -> log !! S i = Some b ->
                entry_role a <> entry_role b.

End Transcript.

(** ** Capture gating *)

Module Capture.





End Capture.

(** ** Reading the session's other behaviour *)

Module Reading.

Import Session.

(** The integer a decimal string denotes. *)
Definition read_decimal (str : string) : option Z :=
  option_map Z.of_int (NilEmpty.int_of_string str).

(** The two-character seconds field of every second of a minute. *)
Definition seconds_field_ok (n : nat) : bool :=
  let field := SessionView.padStart 2 "0" (SessionView.toString (Z.of_nat n)) in
  (String.length field =? 2)%nat
  && match read_decimal field with
     | Some z => (z =? Z.of_nat n)%Z
     | None => false
     end.

(** Every callback and continuation that carries [token] does nothing to
    the state [s]; the continuations only release what they were handed. *)
Definition inert {D : Type} `{Arith D} `{Rounding} (token : string)
    (s : State) : Prop :=
  (forall (inputSampleRate : D) send inputData,
      onaudioprocess token inputSampleRate send inputData s = Normal (s, []))
  /\ onopen token s = (s, [])
  /\ (forall now message, onmessage token now message s = (s, []))
  /\ onclose token s = (s, [])
  /\ onerror token s = (s, [])
  /\ (forall stream outputCtx outputAnalyser inputCtx processor,
        fst (after_getUserMedia token stream outputCtx outputAnalyser
               inputCtx processor s) = s)
  /\ (forall session, fst (after_connect token session s) = s)
  /\ (forall message, fst (start_failed token message s) = s).

(** The state holds no resource and no live token. *)
Definition released (s : State) : Prop :=
  connectionIdRef (refs s) = EmptyString
  /\ isConnectedRef (refs s) = false
  /\ activeSessionRef (refs s) = None
  /\ streamRef (refs s) = None
  /\ inputAudioContextRef (refs s) = None
  /\ audioContextRef (refs s) = None
  /\ processorRef (refs s) = None.

(** What holds of a mounted component whatever happens to it: the
    interval runs only in a started session; an ended session is started
    and has no live token; while the start screen shows and a start is
    under way the log is empty; and the interval's callback closed over
    an empty log. *)
Definition coherent (s : State) : Prop :=
  (timerRunning (view s) = true -> hasStarted (view s) = true)
  /\ (isEndedRef (refs s) = true ->
      hasStarted (view s) = true /\ connectionIdRef (refs s) = EmptyString)
  /\ (hasStarted (view s) = false ->
      connectionIdRef (refs s) <> EmptyString -> transcript (view s) = [])
  /\ (timerRunning (view s) = true -> timerTranscript (view s) = []).

(** The texts of the log, one after the other. *)
Definition texts (log : list entry) : string :=
  fold_right (fun e rest => append (entry_text e) rest) EmptyString log.

End Reading.

(** ** Reading the application and its views *)

Module Views.

Import Types.

(** The string has no occurrence of the character. *)
Definition free_of (c : ascii) (s : string) : Prop :=
  ~ In c (list_ascii_of_string s).


(** What holds of the application between two events: on the upload step
    there is no analysis; without an analysis the application is on the
    upload step or on the analysis step; nothing is loading; and a report
    is held only on the report step. *)
Definition settled (a : App.State) : Prop :=
  (App.step a = UPLOAD -> App.analysis a = None)
  /\ (App.analysis a = None ->
      App.step a = UPLOAD \/ App.step a = ANALYSIS)
  /\ App.isLoading a = false
  /\ (App.step a <> REPORT -> App.report a = None).


End Views.

(** ** Sample states and data *)

Local Open Scope string_scope.

(** Times whose sums and quotients are doubles themselves are added and
    divided exactly. *)
Definition exact_times : Rounding :=
  {| round := fun q => q; round_le := fun _ _ le => le |}.

(** A session that waits for its channel: started, microphone acquired,
    audio graph built, [hasStarted] set and the countdown installed. *)
Definition connecting_session : State :=
  countdown_effect
    (fst (after_getUserMedia "1700000000000" 1%nat 2%nat 3%nat 4%nat 5%nat
            (fst (begin_session "1700000000000" 3 (initial 3))))).

(** A session that is connected: the channel opened and the handle
    returned by [live.connect] stored. *)
Definition connected_session : State :=
  fst (after_connect "1700000000000" 9%nat
         (fst (onopen "1700000000000" connecting_session))).

(** The events that lead a mounted component there. *)
Definition connecting_events : list (Component.event (D := Q)) :=
  [Component.StartClicked 1700000000000;
   Component.GetUserMediaResolved 1700000000000 1%nat 2%nat 3%nat 4%nat
     5%nat].

Definition connected_events : list (Component.event (D := Q)) :=
  (connecting_events
     ++ [Component.ChannelOpened 1700000000000;
         Component.ConnectResolved 1700000000000 9%nat])%list.

(** 375 samples of silence, encoded: 1/64 of a second at 24000 Hz. *)
Definition silence : string := String.concat "" (repeat "AAAA" 250).

Definition sample_block : list number :=
  [Fin 0; Fin (1 # 4); Fin (1 # 2); Fin (3 # 4); Fin 1; Fin (-1 # 2); Fin (-1)].

Definition sample_analysis : Types.ResumeAnalysis :=
  Types.Build_ResumeAnalysis (Fin 72) ["Rocq"; "TypeScript"] "Five years."
    ["Proofs"] ["Design"] [] ["Add dates"].

Definition sample_report : Types.InterviewReport :=
  Types.Build_InterviewReport (Fin 80) (Fin 70) (Fin 75) (Fin 65) (Fin 74)
    ["Verification engineer"] ["Practise"] "Clear answers.".

(** A model that analyses every resume and fails on every report, and one
    that answers both with values of the expected shape. *)
Definition always_analysed (text : string) (imageData mimeType : option string)
  : completion (option Types.ResumeAnalysis) :=
  Normal (Some sample_analysis).

Definition never_reports (transcript : string) (a : Types.ResumeAnalysis)
  : completion (option Types.InterviewReport) :=
  Throw "unavailable".

Definition always_reports (transcript : string) (a : Types.ResumeAnalysis)
  : completion (option Types.InterviewReport) :=
  Normal (Some sample_report).

(** A model whose answer to every resume is the JSON text [null]. *)
Definition analysed_null (text : string) (imageData mimeType : option string)
  : completion (option Types.ResumeAnalysis) :=
  Normal None.


Local Close Scope string_scope.

(** * Properties *)

(** ** Loops that fill an array *)

Section Loops.
Context {A : Type}.

Lemma for_loop_S {S : Type} (n : nat) (body : nat -> S -> S) (s : S) :
  for_loop (Datatypes.S n) body s = body n (for_loop n body s).
Proof.
  unfold for_loop. rewrite seq_S, fold_left_app. reflexivity.
Qed.

(** Writing [f i] at every index [i < k] of an array leaves the rest. *)
Lemma for_loop_insert_prefix (f : nat -> A) (l : list A) (k : nat) :
  (k <= length l)%nat ->
  for_loop k (fun i a => <[i := f i]> a) l = (map f (seq 0 k) ++ drop k l)%list.
Proof.
  induction k as [|k IH]; intros Hk.
  - reflexivity.
  - rewrite for_loop_S, IH by lia.
    assert (exists x, drop k l = x :: drop (Datatypes.S k) l) as [x E].
    { destruct (l !! k) as [x|] eqn:Hx.
      - exists x. apply drop_S. exact Hx.
      - apply lookup_ge_None in Hx. lia. }
    rewrite E.
    rewrite insert_app_r_alt by (rewrite length_map, length_seq; lia).
    rewrite length_map, length_seq, Nat.sub_diag.
    rewrite seq_S, map_app. simpl.
    rewrite <- app_assoc. reflexivity.
Qed.

Lemma for_loop_fill (f : nat -> A) (n : nat) (d : A) :
  for_loop n (fun i a => <[i := f i]> a) (replicate n d) = map f (seq 0 n).
Proof.
  rewrite for_loop_insert_prefix by (rewrite length_replicate; lia).
  rewrite drop_ge by (rewrite length_replicate; lia).
  apply app_nil_r.
Qed.

Lemma for_loop_push (f : nat -> A) (n : nat) :
  for_loop n (fun i a => (a ++ [f i])%list) [] = map f (seq 0 n).
Proof.
  induction n as [|n IH]; [reflexivity|].
  rewrite for_loop_S, IH, seq_S, map_app. reflexivity.
Qed.

Lemma map_get_seq {B : Type} (g : A -> B) (d : A) (l : list A) :
  map (fun i => g (get d l i)) (seq 0 (length l)) = map g l.
Proof.
  induction l as [|x l IH]; [reflexivity|].
  simpl. rewrite <- seq_shift, map_map. f_equal. exact IH.
Qed.

End Loops.

Lemma quantize_map (data : list number) :
  Audio.quantize data = map (fun x => ToInt16 (Audio.scale (Audio.clamp x))) data.
Proof.
  unfold Audio.quantize.
  rewrite (for_loop_fill
             (fun i => ToInt16 (Audio.scale (Audio.clamp (get NaN data i))))).
  apply (map_get_seq (fun x => ToInt16 (Audio.scale (Audio.clamp x)))).
Qed.

Lemma binary_of_bytes_id (bytes : list Z) : Audio.binary_of_bytes bytes = bytes.
Proof.
  unfold Audio.binary_of_bytes.
  rewrite (for_loop_push (fun i => get 0 bytes i)).
  rewrite (map_get_seq (fun x => x)). apply map_id.
Qed.

Lemma bytes_of_binary_map (b : list Z) :
  Audio.bytes_of_binary b = map ToUint8 b.
Proof.
  unfold Audio.bytes_of_binary.
  rewrite (for_loop_fill (fun i => ToUint8 (get 0 b i))).
  apply (map_get_seq ToUint8).
Qed.

Lemma dequantize_map (a : list Z) :
  Audio.dequantize a = map Audio.dequantize_sample a.
Proof.
  unfold Audio.dequantize.
  rewrite (for_loop_fill (fun i => Audio.dequantize_sample (get 0 a i))).
  apply (map_get_seq Audio.dequantize_sample).
Qed.

(** ** Base64 *)

Lemma list_ind3 {A : Type} (P : list A -> Prop) :
  P [] -> (forall a, P [a]) -> (forall a b, P [a; b]) ->
  (forall a b c l, P l -> P (a :: b :: c :: l)) ->
  forall l, P l.
Proof.
  intros H0 H1 H2 H3.
  fix rec 1.
  intros [|a [|b [|c l]]];
    [exact H0 | apply H1 | apply H2 | apply H3; apply rec].
Qed.

Lemma alphabet_checked : forallb alphabet_ok (seq 0 64) = true.
Proof. vm_compute. reflexivity. Qed.

Lemma alphabet_ok_sextet (s : Z) : sextet s -> alphabet_ok (Z.to_nat s) = true.
Proof.
  intros Hs.
  pose proof alphabet_checked as H.
  rewrite forallb_forall in H. apply H.
  apply in_seq. unfold sextet in Hs. lia.
Qed.

Lemma b64_index_char (s : Z) :
  sextet s -> Base64.b64_index (Base64.b64_char s) = Some s.
Proof.
  intros Hs. pose proof (alphabet_ok_sextet s Hs) as H.
  unfold alphabet_ok in H.
  rewrite Z2Nat.id in H by (unfold sextet in Hs; lia).
  apply andb_prop in H as [H _]. apply andb_prop in H as [H _].
  destruct (Base64.b64_index (Base64.b64_char s)) as [s'|]; [|discriminate].
  apply Z.eqb_eq in H. congruence.
Qed.

Lemma b64_char_not_whitespace (s : Z) :
  sextet s -> Base64.is_whitespace (Base64.b64_char s) = false.
Proof.
  intros Hs. pose proof (alphabet_ok_sextet s Hs) as H.
  unfold alphabet_ok in H.
  rewrite Z2Nat.id in H by (unfold sextet in Hs; lia).
  apply andb_prop in H as [H _]. apply andb_prop in H as [_ H].
  apply negb_true_iff in H. exact H.
Qed.

Lemma b64_char_not_pad (s : Z) :
  sextet s -> Ascii.eqb (Base64.b64_char s) Base64.pad = false.
Proof.
  intros Hs. pose proof (alphabet_ok_sextet s Hs) as H.
  unfold alphabet_ok in H.
  rewrite Z2Nat.id in H by (unfold sextet in Hs; lia).
  apply andb_prop in H as [_ H].
  apply negb_true_iff in H. exact H.
Qed.

(** Linear arithmetic with division and remainder by constants. *)
Ltac divmod := Z.div_mod_to_equations; lia.

Lemma sextets_range (bs : list Z) :
  Forall byte bs -> Forall sextet (Base64.sextets bs).
Proof.
  unfold byte, sextet.
  induction bs as [| a | a b | a b c l IH] using list_ind3; intros Hb; simpl.
  - apply Forall_nil_2.
  - inversion_clear Hb.
    repeat (apply Forall_cons_2; [divmod|]). apply Forall_nil_2.
  - inversion_clear Hb as [|? ? ? Hb']. inversion_clear Hb'.
    repeat (apply Forall_cons_2; [divmod|]). apply Forall_nil_2.
  - inversion_clear Hb as [|? ? ? Hb']. inversion_clear Hb' as [|? ? ? Hb''].
    inversion_clear Hb''.
    repeat (apply Forall_cons_2; [divmod|]). auto.
Qed.

Lemma unsextets_sextets (bs : list Z) :
  Forall byte bs -> Base64.unsextets (Base64.sextets bs) = bs.
Proof.
  unfold byte.
  induction bs as [| a | a b | a b c l IH] using list_ind3; intros Hb; simpl.
  - reflexivity.
  - inversion_clear Hb. f_equal. divmod.
  - inversion_clear Hb as [|? ? ? Hb']. inversion_clear Hb'.
    f_equal; [divmod|]. f_equal. divmod.
  - inversion_clear Hb as [|? ? ? Hb']. inversion_clear Hb' as [|? ? ? Hb''].
    inversion_clear Hb''.
    rewrite IH by assumption.
    f_equal; [divmod|]. f_equal; [divmod|]. f_equal. divmod.
Qed.

(** The number of sextets is 0, 2 or 3 modulo 4, never 1. *)
Lemma sextets_length_mod (bs : list Z) :
  (length (Base64.sextets bs) mod 4 <> 1)%nat.
Proof.
  induction bs as [| a | a b | a b c l IH] using list_ind3;
    [discriminate | discriminate | discriminate |].
  change (length (Base64.sextets (a :: b :: c :: l)))
    with (4 + length (Base64.sextets l))%nat.
  replace (4 + length (Base64.sextets l))%nat
    with (length (Base64.sextets l) + 1 * 4)%nat by lia.
  rewrite Nat.Div0.mod_add. exact IH.
Qed.

Lemma indices_chars (ss : list Z) :
  Forall sextet ss -> Base64.indices (map Base64.b64_char ss) = Some ss.
Proof.
  induction 1 as [|s ss Hs _ IH]; simpl; [reflexivity|].
  rewrite b64_index_char, IH by assumption. reflexivity.
Qed.

Lemma filter_all {A : Type} (f : A -> bool) (l : list A) :
  Forall (fun x => f x = true) l -> List.filter f l = l.
Proof.
  induction 1 as [|x l Hx _ IH]; simpl; [reflexivity|].
  rewrite Hx, IH. reflexivity.
Qed.

Lemma padding_cases (n : nat) :
  (n mod 4 <> 1)%nat ->
  (n mod 4 = 0 /\ Base64.padding n = [])%nat
  \/ (n mod 4 = 2 /\ Base64.padding n = [Base64.pad; Base64.pad])%nat
  \/ (n mod 4 = 3 /\ Base64.padding n = [Base64.pad])%nat.
Proof.
  intros Hn. unfold Base64.padding.
  pose proof (Nat.mod_upper_bound n 4 ltac:(lia)) as Hlt.
  destruct (n mod 4)%nat as [|[|[|[|k]]]]; try lia; auto.
Qed.

Lemma strip_padding_body (body : list ascii) :
  Forall (fun c => Ascii.eqb c Base64.pad = false) body ->
  (length body mod 4 <> 1)%nat ->
  Base64.strip_padding (body ++ Base64.padding (length body)) = body.
Proof.
  intros Hbody Hlen.
  assert (Hrev : forall c r, rev body = c :: r ->
                             Ascii.eqb c Base64.pad = false).
  { intros c r E. rewrite List.Forall_forall in Hbody. apply Hbody.
    apply in_rev. rewrite E. left. reflexivity. }
  unfold Base64.strip_padding.
  destruct (padding_cases (length body) Hlen) as [[Hm ->]|[[Hm ->]|[Hm ->]]].
  - rewrite app_nil_r, Hm. simpl.
    destruct (rev body) as [|p1 [|p2 r]] eqn:E; [reflexivity| |];
      rewrite (Hrev _ _ eq_refl); reflexivity.
  - rewrite length_app. simpl length.
    replace ((length body + 2) mod 4)%nat with 0%nat
      by (rewrite Nat.Div0.add_mod, Hm; reflexivity).
    simpl. rewrite rev_app_distr. simpl.
    apply rev_involutive.
  - rewrite length_app. simpl length.
    replace ((length body + 1) mod 4)%nat with 0%nat
      by (rewrite Nat.Div0.add_mod, Hm; reflexivity).
    simpl. rewrite rev_app_distr. simpl.
    destruct (rev body) as [|p2 r] eqn:E.
    + apply (f_equal (@length ascii)) in E. rewrite length_rev in E.
      destruct body; [discriminate Hm | discriminate E].
    + rewrite (Hrev _ _ eq_refl).
      rewrite <- (rev_involutive body), E. reflexivity.
Qed.

(** [atob] undoes [btoa] on every binary string of bytes. *)
Lemma atob_btoa (binary : list Z) :
  Forall byte binary ->
  exists base64, Base64.btoa binary = Some base64
                 /\ Base64.atob base64 = Some binary.
Proof.
  intros Hb.
  pose proof (sextets_range binary Hb) as Hs.
  unfold Base64.btoa.
  assert (forallb Base64.is_byte binary = true) as ->.
  { apply forallb_forall. rewrite List.Forall_forall in Hb.
    intros b Hin. specialize (Hb b Hin). unfold byte in Hb.
    unfold Base64.is_byte. lia. }
  eexists. split; [reflexivity|].
  unfold Base64.atob. rewrite list_ascii_of_string_of_list_ascii.
  set (body := map Base64.b64_char (Base64.sextets binary)).
  assert (Hlen : length body = length (Base64.sextets binary))
    by apply length_map.
  rewrite filter_all.
  - rewrite strip_padding_body.
    + replace ((length body mod 4)%nat =? 1)%nat with false.
      * unfold body. rewrite indices_chars by exact Hs. simpl.
        rewrite unsextets_sextets by exact Hb. reflexivity.
      * symmetry. apply Nat.eqb_neq. rewrite Hlen.
        apply sextets_length_mod.
    + unfold body. apply List.Forall_forall. intros c Hin.
      apply in_map_iff in Hin as [x [<- Hx]].
      rewrite List.Forall_forall in Hs. apply b64_char_not_pad, Hs, Hx.
    + rewrite Hlen. apply sextets_length_mod.
  - apply Forall_app. split.
    + unfold body. apply List.Forall_forall. intros c Hin.
      apply in_map_iff in Hin as [x [<- Hx]].
      rewrite List.Forall_forall in Hs.
      rewrite b64_char_not_whitespace by (apply Hs, Hx). reflexivity.
    + unfold Base64.padding.
      destruct (length body mod 4)%nat as [|[|[|[|k]]]];
        repeat (apply Forall_cons_2; [reflexivity|]); apply Forall_nil_2.
Qed.

(** ** The byte view and the codec pipeline *)

Lemma ToInt16_range (v : number) : int16 (ToInt16 v).
Proof.
  unfold int16, ToInt16. destruct v as [| | |q]; try lia.
  cbv zeta. destruct (32768 <=? Qtrunc q mod 65536) eqn:E.
  - apply Z.leb_le in E. divmod.
  - apply Z.leb_gt in E. divmod.
Qed.

Lemma wrap_int16 (z : Z) :
  int16 z ->
  (if 32768 <=? z mod 65536 then z mod 65536 - 65536 else z mod 65536) = z.
Proof.
  unfold int16. intros Hz.
  destruct (32768 <=? z mod 65536) eqn:E.
  - apply Z.leb_le in E. divmod.
  - apply Z.leb_gt in E. divmod.
Qed.

Lemma bytes_of_int16_bytes (a : list Z) : Forall byte (Audio.bytes_of_int16 a).
Proof.
  unfold Audio.bytes_of_int16, byte.
  induction a as [|z a IH]; simpl.
  - apply Forall_nil_2.
  - apply Forall_cons_2; [divmod|]. apply Forall_cons_2; [divmod|]. exact IH.
Qed.

Lemma bytes_of_int16_length (a : list Z) :
  length (Audio.bytes_of_int16 a) = (2 * length a)%nat.
Proof.
  unfold Audio.bytes_of_int16.
  induction a as [|z a IH]; simpl in *; [reflexivity|]. rewrite IH. lia.
Qed.

Lemma int16_of_pair_bytes (z : Z) :
  int16 z ->
  Audio.int16_of_pair (ToUint8 (z mod 256)) (ToUint8 ((z / 256) mod 256)) = z.
Proof.
  unfold int16, Audio.int16_of_pair, ToUint8. intros Hz. cbv zeta.
  rewrite !Z.mod_mod by lia.
  destruct (32768 <=? z mod 256 + 256 * ((z / 256) mod 256)) eqn:E.
  - apply Z.leb_le in E. divmod.
  - apply Z.leb_gt in E. divmod.
Qed.

Lemma pairs_bytes_of_int16 (a : list Z) :
  Forall int16 a ->
  Audio.pairs (map ToUint8 (Audio.bytes_of_int16 a)) = a.
Proof.
  induction 1 as [|z a Hz _ IH]; simpl; [reflexivity|].
  rewrite int16_of_pair_bytes by exact Hz.
  f_equal. exact IH.
Qed.

Lemma Int16Array_of_bytes (a : list Z) :
  Forall int16 a ->
  Audio.Int16Array_of_buffer (map ToUint8 (Audio.bytes_of_int16 a)) = Some a.
Proof.
  intros Ha. unfold Audio.Int16Array_of_buffer.
  rewrite length_map, bytes_of_int16_length.
  replace (Nat.even (2 * length a)) with true.
  - rewrite pairs_bytes_of_int16 by exact Ha. reflexivity.
  - symmetry. apply Nat.even_spec. exists (length a). reflexivity.
Qed.

Lemma quantize_int16 (data : list number) : Forall int16 (Audio.quantize data).
Proof.
  rewrite quantize_map. apply List.Forall_forall. intros z Hin.
  apply in_map_iff in Hin as [x [<- _]]. apply ToInt16_range.
Qed.

(** Decoding what the encoder produced: the encoder never throws, the
    decoder accepts its output and returns the quantized samples divided by
    32768. *)
Lemma decode_encode (data : list number) :
  exists base64,
    Audio.float32ArrayToBase64 data = Some base64
    /\ Base64.atob base64 = Some (Audio.bytes_of_int16 (Audio.quantize data))
    /\ Audio.base64ToFloat32Array base64
       = Some (map Audio.dequantize_sample (Audio.quantize data)).
Proof.
  unfold Audio.float32ArrayToBase64, Audio.base64ToFloat32Array.
  rewrite binary_of_bytes_id.
  destruct (atob_btoa (Audio.bytes_of_int16 (Audio.quantize data))
              (bytes_of_int16_bytes _)) as [base64 [Hb Ha]].
  exists base64. split; [exact Hb|]. split; [exact Ha|].
  rewrite Ha, bytes_of_binary_map.
  rewrite Int16Array_of_bytes by apply quantize_int16.
  rewrite dequantize_map. reflexivity.
Qed.

Section Quantization.
Local Open Scope Q_scope.

Lemma Qsign_neg_true (q : Q) : Qsign_neg q = true <-> q < 0.
Proof.
  unfold Qsign_neg. rewrite negb_true_iff.
  split.
  - intros E. apply Qnot_le_lt. intros Hle.
    apply Qle_bool_iff in Hle. congruence.
  - intros Hlt. destruct (Qle_bool 0 q) eqn:E; [|reflexivity].
    apply Qle_bool_iff in E. lra.
Qed.

Lemma Qsign_neg_false (q : Q) : Qsign_neg q = false <-> 0 <= q.
Proof.
  unfold Qsign_neg. rewrite negb_false_iff. apply Qle_bool_iff.
Qed.

Lemma Qsign_neg_comp (p q : Q) : p == q -> Qsign_neg p = Qsign_neg q.
Proof.
  intros E. destruct (Qsign_neg q) eqn:Hq.
  - apply Qsign_neg_true. apply Qsign_neg_true in Hq. lra.
  - apply Qsign_neg_false. apply Qsign_neg_false in Hq. lra.
Qed.

Lemma Qtrunc_comp (p q : Q) : p == q -> Qtrunc p = Qtrunc q.
Proof.
  intros E. unfold Qtrunc. rewrite (Qsign_neg_comp p q E).
  destruct (Qsign_neg q); [apply Qceiling_comp | apply Qfloor_comp]; exact E.
Qed.

(** Truncation is monotone, and fixes integers. *)
Lemma Qtrunc_Z (z : Z) : Qtrunc (inject_Z z) = z.
Proof.
  unfold Qtrunc. destruct (Qsign_neg (inject_Z z));
    [apply Qceiling_Z | apply Qfloor_Z].
Qed.

Lemma Qtrunc_between (q : Q) (lo hi : Z) :
  inject_Z lo <= q <= inject_Z hi -> (lo <= Qtrunc q <= hi)%Z.
Proof.
  intros [Hlo Hhi]. unfold Qtrunc. destruct (Qsign_neg q).
  - split.
    + rewrite <- (Qceiling_Z lo). apply Qceiling_resp_le, Hlo.
    + rewrite <- (Qceiling_Z hi). apply Qceiling_resp_le, Hhi.
  - split.
    + rewrite <- (Qfloor_Z lo). apply Qfloor_resp_le, Hlo.
    + rewrite <- (Qfloor_Z hi). apply Qfloor_resp_le, Hhi.
Qed.

(** The code and the specification clamp a finite sample to the same
    rational of [-1,1]. *)
Lemma clamp_Fin (q : Q) :
  exists c c',
    Audio.clamp (Fin q) = Fin c /\ Spec.clamp (Fin q) = Fin c'
    /\ c == c' /\ -1 <= c <= 1 /\ (-1 <= q <= 1 -> c == q).
Proof.
  exists (Qmax (-1) (Qmin 1 q)). eexists.
  split; [reflexivity|]. split; [reflexivity|].
  pose proof (Q.min_spec 1 q) as Hmin.
  pose proof (Q.max_spec (-1) (Qmin 1 q)) as Hmax.
  set (m := Qmin 1 q) in *. set (c := Qmax (-1) m) in *.
  destruct (Qsign_neg (q - -1)) eqn:E1;
    [apply Qsign_neg_true in E1 | apply Qsign_neg_false in E1];
    (destruct (Qsign_neg (1 - q)) eqn:E2;
     [apply Qsign_neg_true in E2 | apply Qsign_neg_false in E2]);
    destruct Hmin as [[? ?]|[? ?]]; destruct Hmax as [[? ?]|[? ?]];
    repeat split; try intros [? ?]; lra.
Qed.

End Quantization.

Section QuantizationError.
Local Open Scope Q_scope.

Lemma Qmake_32768 (z : Z) : z # 32768 == inject_Z z * (1 # 32768).
Proof. unfold Qeq, inject_Z. simpl. lia. Qed.

(** The stored integer of the code is the specification's. *)
Lemma quantize_sample_spec (x : number) :
  ToInt16 (Audio.scale (Audio.clamp x)) = Spec.stored_int16 x.
Proof.
  destruct x as [| | |q]; try (vm_compute; reflexivity).
  destruct (clamp_Fin q) as (c & c' & Hc & Hc' & E & [Hlo Hhi] & _).
  rewrite Hc. unfold Spec.stored_int16. rewrite Hc'.
  unfold Audio.scale. change (lt (Fin c) (Fin 0)) with (Qsign_neg c).
  rewrite <- (Qsign_neg_comp c c' E).
  destruct (Qsign_neg c) eqn:S; simpl mul; unfold ToInt16; cbv zeta.
  - apply Qsign_neg_true in S.
    rewrite wrap_int16.
    + apply Qtrunc_comp. rewrite E. reflexivity.
    + apply (Qtrunc_between _ (-32768) 32767).
      change (inject_Z (-32768)) with (-32768).
      change (inject_Z 32767) with 32767. lra.
  - apply Qsign_neg_false in S.
    rewrite wrap_int16.
    + apply Qtrunc_comp. rewrite E. reflexivity.
    + apply (Qtrunc_between _ (-32768) 32767).
      change (inject_Z (-32768)) with (-32768).
      change (inject_Z 32767) with 32767. lra.
Qed.

Lemma stored_int16_range (x : number) : int16 (Spec.stored_int16 x).
Proof. rewrite <- quantize_sample_spec. apply ToInt16_range. Qed.

(** How far the decoded sample is from a source sample of [-1,1]: a
    negative sample is rounded up by less than one step of 1/32768, a
    non-negative one is rounded down by less than two steps. *)
Lemma dequantize_error (q : Q) :
  -1 <= q <= 1 ->
  let q' := Spec.stored_int16 (Fin q) # 32768 in
  (q < 0 -> 0 <= q' - q < 1 # 32768)
  /\ (0 <= q -> 0 <= q - q' < 2 # 32768).
Proof.
  intros [Hlo Hhi]. cbv zeta. rewrite Qmake_32768.
  unfold Spec.stored_int16, Spec.clamp.
  assert (Qsign_neg (q - -1) = false) as -> by (apply Qsign_neg_false; lra).
  assert (Qsign_neg (1 - q) = false) as -> by (apply Qsign_neg_false; lra).
  unfold Qtrunc. split; intros Hq.
  - assert (Qsign_neg q = true) as -> by (apply Qsign_neg_true; lra).
    assert (Qsign_neg (q * 32768) = true) as ->
      by (apply Qsign_neg_true; lra).
    pose proof (Qle_ceiling (q * 32768)) as H1.
    pose proof (Qceiling_lt (q * 32768)) as H2.
    unfold Z.sub in H2. rewrite inject_Z_plus in H2.
    change (inject_Z (- (1))%Z) with (-1) in H2.
    lra.
  - assert (Qsign_neg q = false) as -> by (apply Qsign_neg_false; lra).
    assert (Qsign_neg (q * 32767) = false) as ->
      by (apply Qsign_neg_false; lra).
    pose proof (Qfloor_le (q * 32767)) as H1.
    pose proof (Qlt_floor (q * 32767)) as H2.
    rewrite inject_Z_plus in H2. change (inject_Z 1) with 1 in H2.
    lra.
Qed.

End QuantizationError.

(** ** The codec claims *)

Lemma lookup_map {A B : Type} (f : A -> B) (l : list A) (i : nat) :
  map f l !! i = option_map f (l !! i).
Proof.
  revert i. induction l as [|x l IH]; intros [|i]; simpl; auto.
Qed.

Lemma decoded_lookup (data : list number) (i : nat) :
  map Audio.dequantize_sample (Audio.quantize data) !! i
  = option_map (fun x => Fin (Spec.stored_int16 x # 32768)) (data !! i).
Proof.
  rewrite quantize_map, !lookup_map.
  destruct (data !! i) as [x|]; simpl; [|reflexivity].
  rewrite quantize_sample_spec. reflexivity.
Qed.

(** C1 as stated fails: the sample 65535/65536, which a [Float32Array]
    holds exactly, is scaled to 32766.5..., stored as 32766 and decoded as
    32766/32768; that is 3/65536 away from the source, more than 1/32768. *)
Lemma codec_roundtrip_counterexample :
  Forall unit_sample [Fin (65535 # 65536)]
  /\ ~ roundtrip (within (1 # 32768)) [Fin (65535 # 65536)].
Proof.
  split.
  - apply Forall_cons_2; [|apply Forall_nil_2].
    exists (65535 # 65536). split; [reflexivity|].
    split; unfold Qle; simpl; lia.
  - intros (base64 & decoded & He & Hd & _ & Hi).
    vm_compute in He. injection He as <-.
    vm_compute in Hd. injection Hd as <-.
    destruct (Hi 0%nat (65535 # 65536) eq_refl) as (q' & Hq' & Hb).
    injection Hq' as <-.
    revert Hb. unfold within. vm_compute. intros Hb. apply Hb. reflexivity.
Qed.

(** C1, amended: for every frame whose samples all lie in [-1,1], decoding
    the encoded chunk yields an array of the same length whose i-th sample
    differs from the i-th source sample by less than 2/32768 in absolute
    value, and by less than 1/32768 when the source sample is negative. *)
Theorem codec_roundtrip (data : list number) :
  Forall unit_sample data ->
  roundtrip (fun q q' => strictly_within (2 # 32768) q q'
                         /\ ((q < 0)%Q -> strictly_within (1 # 32768) q q'))
            data.
Proof.
  intros Hunit.
  destruct (decode_encode data) as (base64 & He & _ & Hd).
  exists base64, (map Audio.dequantize_sample (Audio.quantize data)).
  split; [exact He|]. split; [exact Hd|]. split.
  - rewrite length_map, quantize_map, length_map. reflexivity.
  - intros i q Hi.
    exists (Spec.stored_int16 (Fin q) # 32768)%Q. split.
    + rewrite decoded_lookup, Hi. reflexivity.
    + rewrite Forall_lookup in Hunit.
      destruct (Hunit i _ Hi) as (q0 & [= <-] & Hrange).
      destruct (dequantize_error q Hrange) as [Hneg Hpos].
      unfold strictly_within.
      destruct (Qlt_le_dec q 0) as [Hq|Hq].
      * specialize (Hneg Hq).
        split; [|intros _]; apply Qabs_Qlt_condition; lra.
      * specialize (Hpos Hq).
        split; [|intros Hq'; lra]; apply Qabs_Qlt_condition; lra.
Qed.

Lemma codec_roundtrip_witness :
  roundtrip (fun q q' => strictly_within (2 # 32768) q q'
                         /\ ((q < 0)%Q -> strictly_within (1 # 32768) q q'))
            [Fin (65535 # 65536); Fin (-1 # 3); Fin 1].
Proof.
  apply (codec_roundtrip [Fin (65535 # 65536); Fin (-1 # 3); Fin 1]).
  repeat (apply Forall_cons_2;
          [eexists; split; [reflexivity|];
           split; unfold Qle; simpl; lia|]).
  apply Forall_nil_2.
Defined.

Lemma bytes_of_int16_lookup (a : list Z) (i : nat) :
  Audio.bytes_of_int16 a !! (2 * i)%nat
    = option_map (fun z => z mod 256) (a !! i)
  /\ Audio.bytes_of_int16 a !! (2 * i + 1)%nat
    = option_map (fun z => (z / 256) mod 256) (a !! i).
Proof.
  revert i. induction a as [|z a IH]; intros i.
  - split; reflexivity.
  - destruct i as [|i].
    + split; reflexivity.
    + replace (2 * S i)%nat with (S (S (2 * i))) by lia.
      replace (S (S (2 * i)) + 1)%nat with (S (S (2 * i + 1))) by lia.
      exact (IH i).
Qed.

(** C8: for every input array and every index, the stored 16-bit integer
    is the sample clamped to [-1,1], scaled by 32768 when negative and by
    32767 otherwise, and truncated to an integer (a sample that is not a
    number is stored as 0); it lies in the signed 16-bit range; the bytes
    are the integers in little-endian order, two each; and the base64 text
    returned decodes back to exactly these bytes. *)
Theorem encode_definition (data : list number) :
  (forall i, Audio.quantize data !! i
             = option_map Spec.stored_int16 (data !! i))
  /\ Forall int16 (Audio.quantize data)
  /\ (forall i,
        Audio.bytes_of_int16 (Audio.quantize data) !! (2 * i)%nat
          = option_map (fun z => z mod 256) (Audio.quantize data !! i)
        /\ Audio.bytes_of_int16 (Audio.quantize data) !! (2 * i + 1)%nat
          = option_map (fun z => (z / 256) mod 256)
              (Audio.quantize data !! i))
  /\ exists base64,
       Audio.float32ArrayToBase64 data = Some base64
       /\ Base64.atob base64
          = Some (Audio.bytes_of_int16 (Audio.quantize data)).
Proof.
  split; [|split; [|split]].
  - intros i. rewrite quantize_map, lookup_map.
    destruct (data !! i) as [x|]; simpl; [|reflexivity].
    rewrite quantize_sample_spec. reflexivity.
  - apply quantize_int16.
  - intros i. apply bytes_of_int16_lookup.
  - destruct (decode_encode data) as (base64 & He & Ha & _).
    exists base64. split; assumption.
Qed.

(** C10: for every input array of length n the encoder returns a base64
    string whose decoded byte length is exactly 2*n, so the byte view is
    accepted as an [Int16Array], and the decoder returns an array of
    length n whose samples all lie in [-1, 32767/32768]. *)
Theorem encoder_output_decodable (data : list number) :
  exists base64 binary decoded,
    Audio.float32ArrayToBase64 data = Some base64
    /\ Base64.atob base64 = Some binary
    /\ length binary = (2 * length data)%nat
    /\ Nat.even (length (Audio.bytes_of_binary binary)) = true
    /\ Audio.Int16Array_of_buffer (Audio.bytes_of_binary binary)
       = Some (Audio.quantize data)
    /\ Audio.base64ToFloat32Array base64 = Some decoded
    /\ length decoded = length data
    /\ Forall decoded_sample decoded.
Proof.
  destruct (decode_encode data) as (base64 & He & Ha & Hd).
  exists base64, (Audio.bytes_of_int16 (Audio.quantize data)),
    (map Audio.dequantize_sample (Audio.quantize data)).
  assert (Hlen : length (Audio.quantize data) = length data)
    by (rewrite quantize_map; apply length_map).
  split; [exact He|]. split; [exact Ha|].
  split; [rewrite bytes_of_int16_length, Hlen; reflexivity|].
  split.
  { rewrite bytes_of_binary_map, length_map, bytes_of_int16_length.
    apply Nat.even_spec. exists (length (Audio.quantize data)). reflexivity. }
  split.
  { rewrite bytes_of_binary_map. apply Int16Array_of_bytes, quantize_int16. }
  split; [exact Hd|].
  split; [rewrite length_map; exact Hlen|].
  apply List.Forall_forall. intros y Hin.
  apply in_map_iff in Hin as (z & <- & Hz).
  pose proof (quantize_int16 data) as Hall.
  rewrite List.Forall_forall in Hall. specialize (Hall z Hz).
  unfold int16 in Hall.
  exists (z # 32768)%Q. split; [reflexivity|].
  split; unfold Qle; simpl; lia.
Qed.

(** ** The playback schedule *)

Section PlaybackFacts.
Context `{Rounding}.
Import Playback.
Local Open Scope Q_scope.












End PlaybackFacts.

Section PlaybackClaim.
Context `{Rounding}.
Import Playback.
Local Open Scope Q_scope.




End PlaybackClaim.

Section PlaybackWitness.
#[local] Existing Instance exact_times.


End PlaybackWitness.

(** ** The transcript log *)

Section TranscriptFacts.
Import Transcript.
Local Open Scope string_scope.

Lemma role_eqb_eq (a b : role) : role_eqb a b = true <-> a = b.
Proof. destruct a, b; simpl; split; congruence. Qed.

Lemma transcribe_transcript (r : role) (field : option string) (s : State) :
  transcript (view (transcribe r field s))
  = log_after r field (transcript (view s)).
Proof.
  unfold transcribe, log_after.
  destruct (truthy field); [|reflexivity].
  destruct s as [f v]. destruct v. reflexivity.
Qed.

Lemma merge_nil (r : role) (text : string) : merge r text [] = [Entry r text].
Proof. reflexivity. Qed.

Lemma merge_same (r : role) (text t0 : string) (init : list entry) :
  merge r text (init ++ [Entry r t0]) = (init ++ [Entry r (t0 ++ text)])%list.
Proof.
  unfold merge. rewrite last_snoc. simpl.
  assert (role_eqb r r = true) as -> by (apply role_eqb_eq; reflexivity).
  rewrite length_app. simpl.
  replace (length init + 1 - 1)%nat with (length init) by lia.
  rewrite take_app_length. reflexivity.
Qed.

Lemma merge_other (r r' : role) (text t0 : string) (init : list entry) :
  r' <> r ->
  merge r text (init ++ [Entry r' t0])
  = (init ++ [Entry r' t0; Entry r text])%list.
Proof.
  intros Hne. unfold merge. rewrite last_snoc. simpl.
  destruct (role_eqb r' r) eqn:E.
  - apply role_eqb_eq in E. contradiction.
  - rewrite <- app_assoc. reflexivity.
Qed.

Lemma merge_rule (r : role) (text : string) (log : list entry) :
  merge r text log = rule r text log.
Proof.
  destruct (last log) as [l|] eqn:E.
  - apply last_Some in E as [init ->].
    unfold rule. rewrite last_snoc, removelast_last.
    destruct l as [r' t0]. simpl.
    destruct (role_eqb r' r) eqn:Er.
    + apply role_eqb_eq in Er. subst r'. apply merge_same.
    + rewrite merge_other, <- app_assoc; [reflexivity|]. intros ->.
      assert (role_eqb r r = true) by (apply role_eqb_eq; reflexivity).
      congruence.
  - apply last_None in E. subst log. reflexivity.
Qed.

Lemma truthy_nonempty (text : string) : text <> "" -> truthy (Some text) = Some text.
Proof. destruct text; [congruence | reflexivity]. Qed.

Lemma no_adjacent_snoc (rs : list role) (a r : role) :
  no_adjacent (rs ++ [a]) -> a <> r -> no_adjacent (rs ++ [a; r]).
Proof.
  intros H Hne. induction rs as [|x rs IH].
  - simpl. auto.
  - destruct rs as [|y rs].
    + simpl in *. destruct H as [Hxa _]. auto.
    + simpl in H. destruct H as [Hxy H].
      change (x <> y /\ no_adjacent ((y :: rs) ++ [a; r])).
      split; [exact Hxy|]. apply IH. exact H.
Qed.

Lemma no_adjacent_alternating (log : list entry) :
  no_adjacent (map entry_role log) -> alternating log.
Proof.
  induction log as [|x log IH]; intros H i a b Ha Hb.
  - discriminate.
  - destruct log as [|y log].
    + destruct i; discriminate.
    + simpl in H. destruct H as [Hxy H].
      destruct i as [|i].
      * simpl in Ha, Hb. congruence.
      * apply (IH H i a b); assumption.
Qed.

Lemma receive_no_adjacent (log : list entry) (f : fragment) :
  no_adjacent (map entry_role log) ->
  no_adjacent (map entry_role (receive log f)).
Proof.
  destruct f as [r text]. unfold receive, log_after. simpl fst. simpl snd.
  intros H. destruct (truthy (Some text)) as [t|]; [|exact H].
  destruct (last log) as [l|] eqn:E.
  - apply last_Some in E as [init ->]. destruct l as [r' t0].
    destruct (role_eqb r' r) eqn:Er.
    + apply role_eqb_eq in Er. subst r'. rewrite merge_same.
      rewrite map_app in *. exact H.
    + rewrite merge_other.
      * rewrite map_app in *. simpl in *.
        apply no_adjacent_snoc; [exact H|].
        intros ->.
        assert (role_eqb r r = true) by (apply role_eqb_eq; reflexivity).
        congruence.
      * intros ->.
        assert (role_eqb r r = true) by (apply role_eqb_eq; reflexivity).
        congruence.
  - apply last_None in E. subst log. exact I.
Qed.

Lemma aggregate_no_adjacent (fragments : list fragment) (log : list entry) :
  no_adjacent (map entry_role log) ->
  no_adjacent (map entry_role (fold_left receive fragments log)).
Proof.
  revert log. induction fragments as [|f fs IH]; intros log H; simpl.
  - exact H.
  - apply IH, receive_no_adjacent, H.
Qed.

End TranscriptFacts.

Section TranscriptClaims.
Import Transcript.
Local Open Scope string_scope.

(** C3 as stated fails on a fragment whose text is empty: the handler
    skips it, so on the empty log no entry is pushed. *)
Lemma transcript_merge_counterexample :
  receive (aggregate []) (user, "") = []
  /\ rule user "" (aggregate []) = [Entry user ""]
  /\ receive (aggregate []) (user, "") <> rule user "" (aggregate []).
Proof.
  split; [reflexivity|]. split; [reflexivity|]. discriminate.
Qed.

(** C3, amended: for every sequence of incoming fragments, a fragment with
    non-empty text is appended to the most recent entry when that entry has
    the fragment's role and is pushed as a new entry otherwise, and a
    fragment with empty text leaves the log unchanged; hence no two
    adjacent entries of the log have the same role, and the fragments
    "Hel", "lo wor", "ld" of one role give the single entry "Hello world". *)
Theorem transcript_merge (fragments : list fragment) :
  (forall log r text, text <> "" -> receive log (r, text) = rule r text log)
  /\ (forall log r, receive log (r, "") = log)
  /\ alternating (aggregate fragments)
  /\ (forall r, aggregate [(r, "Hel"); (r, "lo wor"); (r, "ld")]
                = [Entry r "Hello world"]).
Proof.
  split; [|split; [|split]].
  - intros log r text Hne. unfold receive, log_after. simpl.
    change (match text with "" => None | String _ _ => Some text end)
      with (truthy (Some text)).
    rewrite truthy_nonempty by exact Hne. apply merge_rule.
  - reflexivity.
  - apply no_adjacent_alternating. unfold aggregate.
    apply aggregate_no_adjacent. exact I.
  - intros []; reflexivity.
Qed.

Lemma transcript_merge_witness :
  receive [Entry model "Hi"] (user, "Yes") = rule user "Yes" [Entry model "Hi"].
Proof.
  apply (proj1 (transcript_merge [])). discriminate.
Defined.

End TranscriptClaims.

(** ** Ending the session *)

Section EndingFacts.
Local Open Scope string_scope.

Lemma or_else_nonempty (a b : string) : a <> "" -> or_else a b = a.
Proof. destruct a; [congruence | reflexivity]. Qed.

Lemma line_nonempty (t : entry) (rest : string) : line t ++ rest <> "".
Proof. destruct t as [[] text]; discriminate. Qed.

Lemma flattened_nonempty (log : list entry) :
  log <> [] -> String.concat (newline ++ newline) (map line log) <> "".
Proof.
  destruct log as [|t [|t' log]]; intros Hne.
  - congruence.
  - simpl. destruct t as [[] text]; discriminate.
  - simpl. apply line_nonempty.
Qed.

Lemma finalTranscript_nonempty (log : list entry) (buffer : string) :
  finalTranscript log buffer <> "".
Proof.
  unfold finalTranscript.
  destruct (or_else (String.concat (newline ++ newline) (map line log)) buffer);
    discriminate.
Qed.

Lemma cleanupAudio_keeps (s : State) :
  transcriptTextRef (refs (fst (cleanupAudio s))) = transcriptTextRef (refs s)
  /\ isEndedRef (refs (fst (cleanupAudio s))) = isEndedRef (refs s)
  /\ view (fst (cleanupAudio s)) = view s.
Proof. destruct s as [r v]. destruct r. repeat split. Qed.

Lemma cleanupAudio_completions (s : State) :
  completions (snd (cleanupAudio s)) = [].
Proof.
  destruct s as [r v]. destruct r as [? ? ? ? a b c d e f ? ?].
  destruct a, b, c, e, f; reflexivity.
Qed.

(** What [handleEndInterview] does once, and that it does nothing after. *)
Lemma handleEndInterview_first (captured : list entry) (s : State) :
  isEndedRef (refs s) = false ->
  completions (snd (handleEndInterview captured s))
    = [OnComplete (finalTranscript captured (transcriptTextRef (refs s)))]
  /\ isEndedRef (refs (fst (handleEndInterview captured s))) = true
  /\ connectionIdRef (refs (fst (handleEndInterview captured s))) = ""
  /\ status (view (fst (handleEndInterview captured s))) = "Finalizing...".
Proof.
  destruct s as [r v]. destruct r as [? ? ? ? a b c d e f ? ?]. destruct v.
  simpl. intros ->. unfold handleEndInterview. simpl.
  destruct a, b, c, e, f; repeat split.
Qed.

Lemma handleEndInterview_again (captured : list entry) (s : State) :
  isEndedRef (refs s) = true -> handleEndInterview captured s = (s, []).
Proof. intros Hend. unfold handleEndInterview. rewrite Hend. reflexivity. Qed.

End EndingFacts.

(** ** Tokens *)

Section TokenFacts.
Import SessionView Reading.
Local Open Scope string_scope.

Lemma read_toString (z : Z) : read_decimal (toString z) = Some z.
Proof.
  unfold read_decimal, toString. rewrite NilEmpty.isi. simpl.
  f_equal. apply DecimalZ.of_to.
Qed.

(** A token is never the empty string. *)
Lemma toString_nonempty (z : Z) : toString z <> "".
Proof.
  intros E. pose proof (read_toString z) as R. rewrite E in R.
  injection R as <-. discriminate E.
Qed.

End TokenFacts.

(** ** The component, event by event *)

Section ComponentFacts.
Context {D : Type} `{Arith D} `{Rounding}.
Import Component SessionView Reading.
Local Open Scope string_scope.

Lemma run_cons (minutes : Z) (e : event) (es : list event) (s : State) :
  run minutes (e :: es) s
  = (fst (run minutes es (fst (step minutes e s))),
     (snd (step minutes e s)
        ++ snd (run minutes es (fst (step minutes e s))))%list).
Proof.
  simpl. destruct (step minutes e s) as [s1 e1]. simpl.
  destruct (run minutes es s1) as [s2 e2]. reflexivity.
Qed.

Lemma run_app (minutes : Z) (a b : list event) :
  forall s,
    run minutes (a ++ b) s
    = (fst (run minutes b (fst (run minutes a s))),
       (snd (run minutes a s)
          ++ snd (run minutes b (fst (run minutes a s))))%list).
Proof.
  induction a as [|e a IH]; intros s.
  - simpl. destruct (run minutes b s). reflexivity.
  - change ((e :: a) ++ b)%list with (e :: (a ++ b))%list.
    rewrite !run_cons, IH. simpl. rewrite app_assoc. reflexivity.
Qed.

(** A property of the states that every event preserves holds throughout
    every run. *)
Lemma run_preserves (P : State -> Prop) (minutes : Z) :
  (forall e s, P s -> P (fst (step minutes e s))) ->
  forall events s, P s -> P (fst (run minutes events s)).
Proof.
  intros Hstep events. induction events as [|e events IH]; intros s Hs.
  - exact Hs.
  - rewrite run_cons. simpl. apply IH, Hstep, Hs.
Qed.

Lemma onaudioprocess_keeps (token : string) (inputSampleRate : D)
    (send : string -> string -> completion unit)
    (inputData : list number) (s : State) :
  match onaudioprocess token inputSampleRate send inputData s with
  | Normal result => fst result = s /\ completions (snd result) = []
  | Throw _ => True
  end.
Proof.
  unfold onaudioprocess.
  destruct (negb (String.eqb (connectionIdRef (refs s)) token)
            || negb (isConnectedRef (refs s)) || negb (isMicOnRef (refs s)));
    [split; reflexivity|].
  destruct (activeSessionRef (refs s)); [|split; reflexivity].
  destruct (Audio.float32ArrayToBase64 _); [|exact I].
  destruct (send _ _); split; reflexivity.
Qed.

End ComponentFacts.

(** The sample sessions are states a mounted component reaches. *)
Lemma sample_sessions_reached `{Rounding} :
  fst (Component.run 3 connecting_events (initial 3)) = connecting_session
  /\ fst (Component.run 3 connected_events (initial 3)) = connected_session.
Proof. split; reflexivity. Qed.

(** Case analysis on the token tests, the conditionals and the released
    resources of a handler, and the arithmetic-free facts left over. *)
Ltac token_cases :=
  repeat match goal with
    | |- context [String.eqb ?a (SessionView.toString ?z)] =>
        let E := fresh "E" in
        destruct (String.eqb a (SessionView.toString z)) eqn:E;
        [apply String.eqb_eq in E; pose proof (toString_nonempty z)
        | apply String.eqb_neq in E]; simpl
    end.

Ltac if_cases :=
  repeat match goal with
    | |- context [if ?c then _ else _] =>
        let E := fresh "E" in destruct c eqn:E; simpl
    end.

Ltac release_cases :=
  repeat match goal with
    | |- context [release _ ?o] => destruct o; simpl
    end.

Ltac use_facts :=
  repeat match goal with
    | J : true = true -> _ |- _ => specialize (J eq_refl)
    | J : false = false -> _ |- _ => specialize (J eq_refl)
    | J : true = false -> _ |- _ => clear J
    | J : false = true -> _ |- _ => clear J
    | J : _ /\ _ |- _ => destruct J
    end.

Ltac settle :=
  simpl in *; use_facts; repeat split; intros; subst; simpl in *;
  first [discriminate | congruence | reflexivity | assumption
        | (exfalso; congruence) | auto].

(** A state taken apart into its refs and its view, with the handlers
    unfolded on it. *)
Ltac open_state s :=
  destruct s as [[cid conn mic ended sess str actx oan ictx proc next raw]
                   [started0 isconn tl st err tr timer ttr]];
  unfold Reading.coherent in *; simpl in *;
  unfold Component.start_enabled, begin_session, after_getUserMedia,
    after_connect, start_failed, onopen, onclose, onerror, tick,
    handleEndInterview, cleanupAudio, rerender, countdown_effect,
    countdown_cleanup, SessionView.sync_mic;
  simpl; destruct started0, timer, ended; simpl; token_cases; if_cases.

Section CoherenceFacts.
Context {D : Type} `{Arith D} `{Rounding}.
Import Component SessionView Reading.
Local Open Scope string_scope.

Lemma initial_coherent (minutes : Z) : coherent (initial minutes).
Proof.
  repeat split; simpl; intros; first [discriminate | reflexivity].
Qed.

(** What a message leaves alone. *)
Lemma onmessage_frame (token : string) (now : Q) (message : LiveServerMessage)
    (s : State) :
  let s' := fst (onmessage token now message s) in
  hasStarted (view s') = hasStarted (view s)
  /\ timerRunning (view s') = timerRunning (view s)
  /\ timerTranscript (view s') = timerTranscript (view s)
  /\ timeLeft (view s') = timeLeft (view s)
  /\ isEndedRef (refs s') = isEndedRef (refs s)
  /\ connectionIdRef (refs s') = connectionIdRef (refs s)
  /\ completions (snd (onmessage token now message s)) = [].
Proof.
  cbv zeta. unfold onmessage, play_audio, transcribe.
  destruct s as [r v]. destruct r as [cid ? ? ? ? ? actx oan ? ? ? ?].
  destruct v. simpl.
  destruct (negb (String.eqb cid token)); [repeat split|].
  destruct (truthy (audioData message)) as [data|];
    [destruct actx; [destruct oan|]|];
    try (destruct (decodeAudioData data)); simpl;
    destruct (truthy (inputTranscription message));
    destruct (truthy (outputTranscription message)); repeat split.
Qed.

Lemma step_coherent (minutes : Z) (e : event) (s : State) :
  coherent s -> coherent (fst (step minutes e s)).
Proof.
  intros Hc. unfold step. destruct e.
  9: { (* BlockCaptured *)
    simpl. destruct (hasStarted (view s)) eqn:Hs.
    - pose proof (onaudioprocess_keeps (toString started) inputSampleRate send inputData s) as K.
      destruct (onaudioprocess _ _ _ _ s) as [[s1 sent]|]; simpl in *.
      + destruct K as [-> _]. unfold rerender. rewrite Bool.eqb_reflx. exact Hc.
      + unfold rerender. rewrite Bool.eqb_reflx. exact Hc.
    - simpl. unfold rerender. rewrite Bool.eqb_reflx. exact Hc. }
  6: { (* MessageReceived *)
    simpl. destruct (hasStarted (view s)) eqn:Hs.
    - pose proof (onmessage_frame (toString started) now message s) as F.
      cbv zeta in F. destruct F as (F1 & F2 & F3 & F4 & F5 & F6 & _).
      destruct (onmessage _ _ _ s) as [s1 played]. simpl in *.
      unfold rerender. rewrite F1, Hs. simpl.
      unfold coherent in *. rewrite F1, F2, F3, F5, F6, Hs.
      destruct Hc as (J1 & J2 & K & L). repeat split; try tauto. discriminate.
    - simpl. unfold rerender. rewrite Bool.eqb_reflx. exact Hc. }
  all: open_state s; settle.
Qed.

End CoherenceFacts.

Section EndingRuns.
Context {D : Type} `{Arith D} `{Rounding}.
Import Component SessionView Reading.
Local Open Scope string_scope.

(** One event either completes nothing and leaves a set guard set, or
    finds the guard clear, completes once, and sets it. *)
Lemma step_once (minutes : Z) (e : event) (s : State) :
  coherent s ->
  (completions (snd (step minutes e s)) = []
   /\ (isEndedRef (refs s) = true ->
       isEndedRef (refs (fst (step minutes e s))) = true))
  \/ (isEndedRef (refs s) = false
      /\ (exists final,
             completions (snd (step minutes e s)) = [OnComplete final])
      /\ isEndedRef (refs (fst (step minutes e s))) = true).
Proof.
  intros Hc. unfold step. destruct e.
  9: { simpl. destruct (hasStarted (view s)) eqn:Hs.
    - pose proof (onaudioprocess_keeps (toString started) inputSampleRate
                    send inputData s) as K.
      destruct (onaudioprocess _ _ _ _ s) as [[s1 sent]|]; simpl in *.
      + destruct K as [-> ->]. left. split; [reflexivity|].
        unfold rerender. rewrite Bool.eqb_reflx. tauto.
      + left. split; [reflexivity|].
        unfold rerender. rewrite Bool.eqb_reflx. tauto.
    - left. split; [reflexivity|].
      unfold rerender. simpl. rewrite Bool.eqb_reflx. tauto. }
  6: { simpl. destruct (hasStarted (view s)) eqn:Hs.
    - pose proof (onmessage_frame (toString started) now message s) as F.
      cbv zeta in F. destruct F as (F1 & F2 & F3 & F4 & F5 & F6 & F7).
      destruct (onmessage _ _ _ s) as [s1 played]. simpl in *.
      left. split; [exact F7|].
      unfold rerender. rewrite F1, Hs. simpl. congruence.
    - left. split; [reflexivity|].
      unfold rerender. simpl. rewrite Bool.eqb_reflx. tauto. }
  all: open_state s; release_cases.
  all: try solve [left; split; [reflexivity | settle]].
  all: right; split; [reflexivity|]; split; [eexists|]; reflexivity.
Qed.

Lemma run_coherent (minutes : Z) (events : list event) (s : State) :
  coherent s -> coherent (fst (run minutes events s)).
Proof.
  apply (run_preserves coherent). intros e s0. apply step_coherent.
Qed.

Lemma run_ended (minutes : Z) (events : list event) :
  forall s, coherent s -> isEndedRef (refs s) = true ->
            completions (snd (run minutes events s)) = [].
Proof.
  induction events as [|e events IH]; intros s Hc Hs; [reflexivity|].
  rewrite run_cons. simpl. unfold completions in *.
  rewrite List.filter_app.
  destruct (step_once minutes e s Hc) as [[Hnone Hkeep]|[Hf _]];
    [|congruence].
  unfold completions in Hnone. rewrite Hnone.
  apply IH; [apply step_coherent, Hc | apply Hkeep, Hs].
Qed.

Lemma run_at_most_once (minutes : Z) (events : list event) :
  forall s, coherent s ->
            (length (completions (snd (run minutes events s))) <= 1)%nat.
Proof.
  induction events as [|e events IH]; intros s Hc; [simpl; lia|].
  rewrite run_cons. simpl. unfold completions in *.
  rewrite List.filter_app, length_app.
  pose proof (step_coherent minutes e s Hc) as Hc'.
  destruct (step_once minutes e s Hc) as [[Hnone _]|(_ & [final Hone] & He)];
    unfold completions in *.
  - rewrite Hnone. apply IH, Hc'.
  - rewrite Hone. pose proof (run_ended minutes events _ Hc' He) as Hr.
    unfold completions in Hr. rewrite Hr. simpl. lia.
Qed.

(** A firing of the running interval: the countdown goes down by one, and
    the firing that finds it at 1 (or below) ends the interview, with the
    transcript flattened from the log the interval closed over, which is
    empty: the raw buffer, or the placeholder. *)
Lemma interval_fired (minutes : Z) (s : State) :
  coherent s ->
  timerRunning (view s) = true ->
  isEndedRef (refs s) = false ->
  let fired := step minutes IntervalFired s in
  (1 < timeLeft (view s) ->
   completions (snd fired) = []
   /\ timeLeft (view (fst fired)) = timeLeft (view s) - 1
   /\ isEndedRef (refs (fst fired)) = false)
  /\ (timeLeft (view s) <= 1 ->
      completions (snd fired)
      = [OnComplete (or_else (transcriptTextRef (refs s))
                       "No transcript available.")]
      /\ timeLeft (view (fst fired)) = 0
      /\ isEndedRef (refs (fst fired)) = true).
Proof.
  intros Hc Hrun Hend. cbv zeta. unfold step. simpl.
  open_state s; try discriminate; use_facts; subst ttr.
  all: split; intros Hle.
  all: try (apply Z.leb_le in E; lia); try (apply Z.leb_gt in E; lia).
  all: release_cases; repeat split.
Qed.

End EndingRuns.

Section LogRuns.
Context {D : Type} `{Arith D} `{Rounding}.
Import Component SessionView Reading.
Local Open Scope string_scope.

(** What an event does to the log and to the raw buffer: it leaves them,
    or it is a start and empties them, or it is a message, handled by
    [onmessage]. *)
Lemma step_log (minutes : Z) (e : event) (s : State) :
  let s' := fst (step minutes e s) in
  (transcript (view s') = transcript (view s)
   /\ transcriptTextRef (refs s') = transcriptTextRef (refs s))
  \/ (transcript (view s') = [] /\ transcriptTextRef (refs s') = "")
  \/ (exists token now message,
         transcript (view s')
         = transcript (view (fst (onmessage token now message s)))
         /\ transcriptTextRef (refs s')
            = transcriptTextRef (refs (fst (onmessage token now message s)))).
Proof.
  cbv zeta. unfold step. destruct e.
  9: { left. simpl. destruct (hasStarted (view s)) eqn:Hs.
    - pose proof (onaudioprocess_keeps (toString started) inputSampleRate
                    send inputData s) as K.
      destruct (onaudioprocess _ _ _ _ s) as [[s1 sent]|]; simpl in *.
      + destruct K as [-> _]. unfold rerender. rewrite Bool.eqb_reflx.
        split; reflexivity.
      + unfold rerender. rewrite Bool.eqb_reflx. split; reflexivity.
    - unfold rerender. simpl. rewrite Bool.eqb_reflx. split; reflexivity. }
  6: { simpl. destruct (hasStarted (view s)) eqn:Hs.
    - right. right. exists (toString started), now, message.
      pose proof (onmessage_frame (toString started) now message s) as F.
      cbv zeta in F. destruct F as (F1 & _).
      destruct (onmessage _ _ _ s) as [s1 played]. simpl in *.
      unfold rerender. rewrite F1, Hs. split; reflexivity.
    - left. unfold rerender. simpl. rewrite Bool.eqb_reflx.
      split; reflexivity. }
  all: open_state s.
  all: first [left; split; reflexivity | right; left; split; reflexivity].
Qed.

(** The countdown stays between 0 and the full duration; only a start
    raises it; a firing of the running interval lowers it by one, down to
    0. *)
Lemma step_timeLeft (minutes : Z) (e : event) (s : State) :
  0 <= minutes ->
  0 <= timeLeft (view s) <= minutes * 60 ->
  let s' := fst (step minutes e s) in
  0 <= timeLeft (view s') <= minutes * 60
  /\ ((forall now, e <> StartClicked now) ->
      timeLeft (view s') <= timeLeft (view s))
  /\ (e = IntervalFired -> timerRunning (view s) = true ->
      timeLeft (view s') = Z.max 0 (timeLeft (view s) - 1)).
Proof.
  intros Hm Hs. cbv zeta. unfold step. destruct e.
  9: { simpl. destruct (hasStarted (view s)) eqn:Hst.
    - pose proof (onaudioprocess_keeps (toString started) inputSampleRate
                    send inputData s) as K.
      destruct (onaudioprocess _ _ _ _ s) as [[s1 sent]|]; simpl in *.
      + destruct K as [-> _]. unfold rerender. rewrite Bool.eqb_reflx.
        repeat split; first [lia | discriminate].
      + unfold rerender. rewrite Bool.eqb_reflx.
        repeat split; first [lia | discriminate].
    - unfold rerender. simpl. rewrite Bool.eqb_reflx.
      repeat split; first [lia | discriminate]. }
  6: { simpl. destruct (hasStarted (view s)) eqn:Hst.
    - pose proof (onmessage_frame (toString started) now message s) as F.
      cbv zeta in F. destruct F as (F1 & _ & _ & F4 & _).
      destruct (onmessage _ _ _ s) as [s1 played]. simpl in *.
      unfold rerender. rewrite F1, Hst. simpl. rewrite F4.
      repeat split; first [lia | discriminate].
    - unfold rerender. simpl. rewrite Bool.eqb_reflx.
      repeat split; first [lia | discriminate]. }
  all: open_state s.
  all: repeat match goal with
         | E : (_ <=? _) = true |- _ => apply Z.leb_le in E
         | E : (_ <=? _) = false |- _ => apply Z.leb_gt in E
         end.
  all: repeat split; intros;
    first [lia | discriminate | congruence
          | match goal with N : forall now, _ <> _ |- _ =>
              exfalso; eapply N; reflexivity end].
Qed.

End LogRuns.

(** ** The ending claims *)

Section EndingClaims.
Context {D : Type} `{Arith D} `{Rounding}.
Import Component Reading.
Local Open Scope string_scope.

(** C4, amended: when the session is ended by the end button, the entries
    of the log are flattened to lines "Candidate: text" (user) and
    "Interviewer: text" (model) joined by blank lines; if the log is empty
    the raw text buffer is used instead; if the buffer is empty too, the
    transcript delivered to [onComplete] is exactly "No transcript
    available.".  The transcript is never empty, so the application's own
    default "No conversation recorded." is never substituted for it. *)
Theorem final_transcript (minutes : Z) (s : State) :
  hasStarted (view s) = true ->
  isEndedRef (refs s) = false ->
  let log := transcript (view s) in
  let buffer := transcriptTextRef (refs s) in
  exists delivered,
    completions (snd (step (D := D) minutes EndClicked s))
    = [OnComplete delivered]
    /\ (log <> [] ->
        delivered = String.concat (newline ++ newline) (map line log))
    /\ (forall text, line (Entry user text) = "Candidate: " ++ text
                     /\ line (Entry model text) = "Interviewer: " ++ text)
    /\ (log = [] -> buffer <> "" -> delivered = buffer)
    /\ (log = [] -> buffer = "" -> delivered = "No transcript available.")
    /\ delivered <> ""
    /\ report_input delivered = delivered.
Proof.
  intros Hstarted Hend. cbv zeta.
  exists (finalTranscript (transcript (view s)) (transcriptTextRef (refs s))).
  split.
  - unfold step. simpl. rewrite Hstarted.
    destruct (handleEndInterview_first (transcript (view s)) s Hend)
      as (Hdone & _).
    destruct (handleEndInterview (transcript (view s)) s) as [s1 effects].
    exact Hdone.
  - split; [|split; [|split; [|split; [|split]]]].
    + intros Hne. unfold finalTranscript.
      rewrite (or_else_nonempty _ (transcriptTextRef (refs s)))
        by (apply flattened_nonempty, Hne).
      apply or_else_nonempty, flattened_nonempty, Hne.
    + intros text. split; reflexivity.
    + intros -> Hne. unfold finalTranscript. simpl.
      apply or_else_nonempty. exact Hne.
    + intros -> ->. reflexivity.
    + apply finalTranscript_nonempty.
    + apply or_else_nonempty, finalTranscript_nonempty.
Qed.

(** C5: in every run of a mounted component [onComplete] is invoked at
    most once, whatever the events, countdown firings and clicks on the
    end button in any number and order; once the guard is set nothing
    more is completed; and the firing of the interval that finds the
    countdown at 1 ends the interview exactly once.  What that ending
    delivers is not the transcript flattened from the log: the interval
    calls the [handleEndInterview] of the render in which it was
    installed, whose log is empty, so [onComplete] receives the raw text
    buffer, without roles, or the placeholder when that is empty. *)
Theorem ending_at_most_once (minutes : Z) (events : list event) :
  let reached := fst (run (D := D) minutes events (initial minutes)) in
  (length (completions (snd (run minutes events (initial minutes)))) <= 1)%nat
  /\ (isEndedRef (refs reached) = true ->
      forall later, completions (snd (run minutes later reached)) = [])
  /\ (timerRunning (view reached) = true ->
      isEndedRef (refs reached) = false ->
      let fired := step minutes IntervalFired reached in
      (1 < timeLeft (view reached) ->
       completions (snd fired) = []
       /\ timeLeft (view (fst fired)) = timeLeft (view reached) - 1
       /\ isEndedRef (refs (fst fired)) = false)
      /\ (timeLeft (view reached) <= 1 ->
          completions (snd fired)
          = [OnComplete (or_else (transcriptTextRef (refs reached))
                           "No transcript available.")]
          /\ timeLeft (view (fst fired)) = 0
          /\ forall later,
               completions (snd (run minutes (IntervalFired :: later) reached))
               = [OnComplete (or_else (transcriptTextRef (refs reached))
                                "No transcript available.")])).
Proof.
  cbv zeta.
  pose proof (run_coherent minutes events (initial minutes)
                (initial_coherent minutes)) as Hc.
  split; [apply run_at_most_once, initial_coherent|].
  split; [intros Hend later; apply run_ended; assumption|].
  intros Hrun Hend.
  destruct (interval_fired minutes _ Hc Hrun Hend) as [Hmore Hlast].
  split; [exact Hmore|]. intros Hle.
  destruct (Hlast Hle) as (Hdone & Hzero & Hset).
  split; [exact Hdone|]. split; [exact Hzero|].
  intros later. rewrite run_cons. simpl. unfold completions in *.
  rewrite List.filter_app, Hdone.
  pose proof (run_ended minutes later _ (step_coherent minutes _ _ Hc) Hset)
    as Hr.
  unfold completions in Hr. rewrite Hr. reflexivity.
Qed.

End EndingClaims.

Section EndingWitnesses.
Import Component.
#[local] Existing Instance exact_times.
Local Open Scope string_scope.

(** C4 as stated fails: in a connected session in which nothing was said,
    the end button delivers "No transcript available." to [onComplete]. *)
Lemma final_transcript_counterexample :
  let s := fst (run 3 connected_events (initial 3)) in
  hasStarted (view s) = true
  /\ transcript (view s) = []
  /\ transcriptTextRef (refs s) = ""
  /\ completions (snd (step (D := Q) 3 EndClicked s))
     = [OnComplete "No transcript available."]
  /\ "No transcript available." <> "No conversation recorded.".
Proof. repeat split; try reflexivity. discriminate. Qed.

(** A session in which the candidate said "Hi" and the interviewer
    "Hello". *)
Lemma final_transcript_witness :
  let s :=
    fst (run 3 (connected_events
                  ++ [MessageReceived 1700000000000 (1 # 2)
                        (Message (Some silence) (Some "Hi") (Some "Hello"))])
           (initial 3)) in
  exists delivered,
    completions (snd (step (D := Q) 3 EndClicked s)) = [OnComplete delivered]
    /\ delivered
       = String.concat (newline ++ newline)
           (map line [Entry user "Hi"; Entry model "Hello"])
    /\ report_input delivered = delivered.
Proof.
  intros s.
  assert (Hstarted : hasStarted (view s) = true) by (vm_compute; reflexivity).
  assert (Hend : isEndedRef (refs s) = false) by (vm_compute; reflexivity).
  assert (Hlog : transcript (view s) = [Entry user "Hi"; Entry model "Hello"])
    by (vm_compute; reflexivity).
  destruct (final_transcript (D := Q) 3 s Hstarted Hend)
    as (delivered & Hdone & Hflat & _ & _ & _ & _ & Hreport).
  exists delivered. split; [exact Hdone|]. split; [|exact Hreport].
  rewrite <- Hlog. apply Hflat. rewrite Hlog. discriminate.
Defined.

(** Three minutes, the candidate said "Hi" and the interviewer "Hello",
    and the interval fired 179 times: the next firing ends the interview
    with the raw text, where the end button would deliver the log. *)
Lemma ending_at_most_once_witness :
  let events :=
    (connected_events
       ++ [MessageReceived 1700000000000 (1 # 2)
             (Message (Some silence) (Some "Hi") (Some "Hello"))]
       ++ repeat IntervalFired 179)%list in
  let reached := fst (run 3 events (initial 3)) in
  transcript (view reached) = [Entry user "Hi"; Entry model "Hello"]
  /\ timeLeft (view reached) = 1
  /\ completions (snd (step (D := Q) 3 IntervalFired reached))
     = [OnComplete "HiHello"]
  /\ completions (snd (step (D := Q) 3 EndClicked reached))
     = [OnComplete ("Candidate: Hi" ++ newline ++ newline
                      ++ "Interviewer: Hello")].
Proof.
  intros events reached.
  assert (Hrun : timerRunning (view reached) = true)
    by (vm_compute; reflexivity).
  assert (Hend : isEndedRef (refs reached) = false)
    by (vm_compute; reflexivity).
  assert (Hleft : timeLeft (view reached) <= 1) by (vm_compute; discriminate).
  assert (Hraw : or_else (transcriptTextRef (refs reached))
                   "No transcript available." = "HiHello")
    by (vm_compute; reflexivity).
  destruct (ending_at_most_once (D := Q) 3 events) as (_ & _ & Hfire).
  destruct (Hfire Hrun Hend) as (_ & Hlast).
  destruct (Hlast Hleft) as (Hdone & _).
  split; [vm_compute; reflexivity|]. split; [vm_compute; reflexivity|].
  split; [rewrite <- Hraw; exact Hdone | vm_compute; reflexivity].
Defined.

End EndingWitnesses.

(** ** Capture, and the generation token *)

(** With exact arithmetic the resampler never reads past the end of its
    input: every index it computes is below the input length. *)
Lemma downsample_reads_in_range (rate : Q) (len i : nat) :
  (16000 < rate)%Q ->
  (i < d_floor (d_div (d_of_Z (Z.of_nat len)) (d_div rate (d_of_Z 16000))))%nat ->
  (d_floor (d_mul (d_of_Z (Z.of_nat i)) (d_div rate (d_of_Z 16000))) < len)%nat.
Proof.
  cbv [d_floor d_div d_mul d_of_Z Arith_Q]. intros Hrate Hi.
  set (ratio := (rate / inject_Z 16000)%Q) in *.
  assert (Hratio : (1 < ratio)%Q).
  { unfold ratio. apply Qlt_shift_div_l; [reflexivity|].
    change (inject_Z 16000) with 16000%Q. lra. }
  clearbody ratio.
  pose proof (Qfloor_le (inject_Z (Z.of_nat len) / ratio)) as Hfl.
  assert (Hi' : (Z.of_nat i + 1 <= Qfloor (inject_Z (Z.of_nat len) / ratio))%Z)
    by lia.
  rewrite Zle_Qle, inject_Z_plus in Hi'.
  change (inject_Z 1) with 1%Q in Hi'.
  assert (Hmul : ((inject_Z (Z.of_nat i) + 1) * ratio
                  <= inject_Z (Z.of_nat len))%Q).
  { assert (E : (inject_Z (Z.of_nat len) / ratio * ratio
                 == inject_Z (Z.of_nat len))%Q) by (field; lra).
    rewrite <- E. apply Qmult_le_compat_r; lra. }
  pose proof (Qfloor_le (inject_Z (Z.of_nat i) * ratio)) as Hfi.
  assert (Hlt : (inject_Z (Qfloor (inject_Z (Z.of_nat i) * ratio))
                 < inject_Z (Z.of_nat len))%Q).
  { clear Hfl Hi' Hi.
    assert (E : ((inject_Z (Z.of_nat i) + 1) * ratio
                 == inject_Z (Z.of_nat i) * ratio + ratio)%Q) by ring.
    rewrite E in Hmul.
    set (x := (inject_Z (Z.of_nat i) * ratio)%Q) in *.
    set (y := inject_Z (Qfloor x)) in *. clearbody y x. lra. }
  rewrite <- Zlt_Qlt in Hlt.
  assert (Hpos : (0 <= Qfloor (inject_Z (Z.of_nat i) * ratio))%Z).
  { rewrite <- (Qfloor_Z 0). apply Qfloor_resp_le.
    apply Qmult_le_0_compat; [|lra].
    change 0%Q with (inject_Z 0). rewrite <- Zle_Qle. lia. }
  lia.
Qed.

Section CaptureClaims.
Context {D : Type} `{Arith D} `{Rounding}.
Import Capture.
Local Open Scope string_scope.

Lemma encoder_returns (data : list number) :
  exists base64, Audio.float32ArrayToBase64 data = Some base64.
Proof.
  destruct (decode_encode data) as (base64 & He & _). exists base64. exact He.
Qed.





(** C6: a callback that runs with a token different from
    [connectionIdRef.current] leaves the session state untouched, schedules
    no playback and sends no frame: the five channel and capture callbacks
    do nothing at all, and the continuations of the two awaits of
    [startSession] only release the resource they were handed (or log the
    rejection). *)
Theorem stale_callback_noop (token : string) (s : State) :
  connectionIdRef (refs s) <> token ->
  (forall inputSampleRate send inputData,
      onaudioprocess token inputSampleRate send inputData s = Normal (s, []))
  /\ onopen token s = (s, [])
  /\ (forall now message, onmessage token now message s = (s, []))
  /\ onclose token s = (s, [])
  /\ onerror token s = (s, [])
  /\ (forall stream outputCtx outputAnalyser inputCtx processor,
        after_getUserMedia token stream outputCtx outputAnalyser inputCtx
          processor s
        = (s, [StopTracks stream]))
  /\ (forall session, after_connect token session s
                      = (s, [SessionClose session]))
  /\ (forall message, start_failed token message s
                      = (s, [Console "Init Error:"])).
Proof.
  intros Hstale.
  assert (E : String.eqb (connectionIdRef (refs s)) token = false)
    by (apply String.eqb_neq; exact Hstale).
  unfold onaudioprocess, onopen, onmessage, onclose, onerror,
    after_getUserMedia, after_connect, start_failed.
  rewrite E. simpl. repeat split.
Qed.

(** C9: when the capture rate exceeds 16000 the block handed to the
    encoder has length floor(inputLength / ratio), with ratio =
    inputRate / 16000, and its i-th sample is the input sample at index
    floor(i * ratio), unfiltered; at 16000 or below the block is the input
    itself. *)
Theorem capture_resampling (inputSampleRate : D) (inputData : list number) :
  let ratio := d_div inputSampleRate (d_of_Z 16000) in
  let newLength :=
    d_floor (d_div (d_of_Z (Z.of_nat (length inputData))) ratio) in
  (d_gt inputSampleRate (d_of_Z 16000) = true ->
   length (processingData inputSampleRate inputData) = newLength
   /\ forall i, (i < newLength)%nat ->
        processingData inputSampleRate inputData !! i
        = Some (get NaN inputData
                  (d_floor (d_mul (d_of_Z (Z.of_nat i)) ratio))))
  /\ (d_gt inputSampleRate (d_of_Z 16000) = false ->
      processingData inputSampleRate inputData = inputData).
Proof.
  intros ratio newLength. unfold processingData. split; intros Hgt; rewrite Hgt.
  - unfold downsample. fold ratio. fold newLength.
    rewrite (for_loop_fill
               (fun i => get NaN inputData
                           (d_floor (d_mul (d_of_Z (Z.of_nat i)) ratio)))).
    split; [rewrite length_map, length_seq; reflexivity|].
    intros i Hi. rewrite lookup_map.
    rewrite lookup_seq_lt by exact Hi. reflexivity.
  - reflexivity.
Qed.

End CaptureClaims.

Section CaptureWitnesses.
Import Capture.
#[local] Existing Instance exact_times.
Local Open Scope string_scope.


Lemma stale_callback_noop_witness :
  onmessage "1699999999999" 5%Q (Message (Some "AAA=") (Some "hi") None)
    connected_session
  = (connected_session, [])
  /\ onaudioprocess "1699999999999" 48000%Q (fun _ _ => Normal tt)
       sample_block connected_session
     = Normal (connected_session, [])
  /\ after_connect "1699999999999" 7%nat connected_session
     = (connected_session, [SessionClose 7%nat]).
Proof.
  assert (Hstale : connectionIdRef (refs connected_session)
                   <> "1699999999999") by discriminate.
  destruct (stale_callback_noop (D := Q) "1699999999999" connected_session
              Hstale) as (Haudio & _ & Hmessage & _ & _ & _ & Hconnect & _).
  split; [apply Hmessage|]. split; [apply Haudio | apply Hconnect].
Defined.

Lemma capture_resampling_witness :
  (length (processingData 48000%Q sample_block) = 2%nat
   /\ processingData 48000%Q sample_block !! 1%nat = Some (Fin (3 # 4)))
  /\ processingData 16000%Q sample_block = sample_block.
Proof.
  split.
  - assert (Hgt : d_gt 48000%Q (d_of_Z 16000) = true) by reflexivity.
    destruct (proj1 (capture_resampling 48000%Q sample_block) Hgt)
      as [Hlen Hi].
    split; [exact Hlen|]. apply (Hi 1%nat). vm_compute. lia.
  - apply (proj2 (capture_resampling 16000%Q sample_block)). reflexivity.
Defined.

End CaptureWitnesses.



(** * Further properties of the session *)

Section DisplayFacts.
Import SessionView Reading.
Local Open Scope string_scope.

Lemma seconds_fields_checked : forallb seconds_field_ok (seq 0 60) = true.
Proof. vm_compute. reflexivity. Qed.

Lemma seconds_field (z : Z) :
  (0 <= z < 60)%Z ->
  String.length (padStart 2 "0" (toString z)) = 2%nat
  /\ read_decimal (padStart 2 "0" (toString z)) = Some z.
Proof.
  intros Hz. pose proof seconds_fields_checked as H.
  rewrite forallb_forall in H.
  specialize (H (Z.to_nat z) ltac:(apply in_seq; lia)).
  unfold seconds_field_ok in H. rewrite Z2Nat.id in H by lia.
  apply andb_prop in H as [Hlen Hread].
  apply Nat.eqb_eq in Hlen. split; [exact Hlen|].
  destruct (read_decimal (padStart 2 "0" (toString z))) as [z'|];
    [|discriminate].
  apply Z.eqb_eq in Hread. congruence.
Qed.

Lemma length_append (a b : string) :
  String.length (a ++ b) = (String.length a + String.length b)%nat.
Proof. induction a as [|c a IH]; simpl; [reflexivity | rewrite IH; reflexivity]. Qed.

Lemma append_same_length (a a' b b' : string) :
  String.length a = String.length a' -> a ++ b = a' ++ b' -> a = a' /\ b = b'.
Proof.
  revert a'. induction a as [|c a IH]; intros [|c' a'] Hlen Heq;
    try discriminate Hlen.
  - split; [reflexivity | exact Heq].
  - simpl in Heq. injection Heq as -> Heq. injection Hlen as Hlen.
    destruct (IH a' Hlen Heq) as [-> ->]. split; reflexivity.
Qed.

Lemma safe_integer_nonneg (t : Z) :
  (0 <= t <= MAX_SAFE_INTEGER)%Z -> safe_integer t = true.
Proof. intros Ht. unfold safe_integer. apply Z.leb_le. lia. Qed.

(** X1: for a time that is a safe integer and not negative,
    [formatTime] shows the minutes, a colon
    and a seconds field of exactly two characters; read as decimals the
    two fields are the quotient and the remainder by 60; so two different
    such times are never shown alike. *)
Theorem formatTime_fields (seconds : Z) :
  (0 <= seconds <= MAX_SAFE_INTEGER)%Z ->
  (exists minutes field,
      formatTime seconds = Some (minutes ++ ":" ++ field)
      /\ String.length field = 2%nat
      /\ read_decimal minutes = Some (seconds / 60)%Z
      /\ read_decimal field = Some (seconds mod 60)%Z)
  /\ (forall other, (0 <= other <= MAX_SAFE_INTEGER)%Z ->
         formatTime other = formatTime seconds -> other = seconds).
Proof.
  assert (Hfields : forall t, (0 <= t <= MAX_SAFE_INTEGER)%Z ->
            formatTime t
            = Some (toString (t / 60)
                      ++ ":" ++ padStart 2 "0" (toString (t mod 60)))
            /\ String.length (padStart 2 "0" (toString (t mod 60))) = 2%nat
            /\ read_decimal (padStart 2 "0" (toString (t mod 60)))
               = Some (t mod 60)%Z).
  { intros t Ht. unfold formatTime. rewrite safe_integer_nonneg by exact Ht.
    cbv zeta. rewrite Z.rem_mod_nonneg by lia.
    destruct (seconds_field (t mod 60)) as [Hlen Hread];
      [apply Z.mod_pos_bound; lia|].
    repeat split; assumption. }
  intros Hs. destruct (Hfields seconds Hs) as (Hfmt & Hlen & Hread). split.
  - exists (toString (seconds / 60)),
      (padStart 2 "0" (toString (seconds mod 60))).
    repeat split; try assumption. apply read_toString.
  - intros other Ho Heq.
    destruct (Hfields other Ho) as (Hfmt' & Hlen' & Hread').
    rewrite Hfmt, Hfmt' in Heq. injection Heq as Heq.
    assert (Hl : String.length (toString (other / 60))
                 = String.length (toString (seconds / 60))).
    { apply (f_equal String.length) in Heq.
      rewrite !length_append in Heq. simpl in Heq.
      rewrite Hlen, Hlen' in Heq. lia. }
    destruct (append_same_length _ _ _ _ Hl Heq) as [Hm Hf].
    injection Hf as Hf.
    assert (Hq : (other / 60 = seconds / 60)%Z).
    { pose proof (read_toString (other / 60)) as R. rewrite Hm in R.
      rewrite read_toString in R. congruence. }
    assert (Hr : (other mod 60 = seconds mod 60)%Z).
    { rewrite Hf in Hread'. congruence. }
    rewrite (Z.div_mod other 60), (Z.div_mod seconds 60) by lia.
    rewrite Hq, Hr. reflexivity.
Qed.

Lemma formatTime_fields_witness :
  (exists minutes field,
      formatTime 65 = Some (minutes ++ ":" ++ field)
      /\ String.length field = 2%nat
      /\ read_decimal minutes = Some (65 / 60)%Z
      /\ read_decimal field = Some (65 mod 60)%Z)
  /\ (forall other, (0 <= other <= MAX_SAFE_INTEGER)%Z ->
         formatTime other = formatTime 65 -> other = 65%Z).
Proof. apply (formatTime_fields 65). unfold MAX_SAFE_INTEGER. lia. Defined.

End DisplayFacts.

Section TeardownFacts.
Context {D : Type} `{Arith D} `{Rounding}.
Import Reading Capture.
Local Open Scope string_scope.

(** X2: in every run of a mounted component, for an interview of
    [minutes] minutes, the remaining time stays between 0 and the full
    duration; no event but a start raises it; and a firing of the running
    interval lowers it by one, down to 0. *)
Theorem countdown_bounded (minutes : Z) (events : list Component.event)
    (e : Component.event) :
  (0 <= minutes)%Z ->
  let s := fst (Component.run (D := D) minutes events (initial minutes)) in
  let s' := fst (Component.step minutes e s) in
  (0 <= timeLeft (view s) <= minutes * 60)%Z
  /\ ((forall now, e <> Component.StartClicked now) ->
      (timeLeft (view s') <= timeLeft (view s))%Z)
  /\ (e = Component.IntervalFired -> timerRunning (view s) = true ->
      timeLeft (view s') = Z.max 0 (timeLeft (view s) - 1)).
Proof.
  intros Hm. cbv zeta.
  assert (Hs : (0 <= timeLeft (view (fst (Component.run minutes events
                                            (initial minutes))))
                <= minutes * 60)%Z).
  { apply (run_preserves
             (fun s => (0 <= timeLeft (view s) <= minutes * 60)%Z)).
    - intros e0 s0 Hs0. apply (step_timeLeft minutes e0 s0 Hm Hs0).
    - simpl. lia. }
  split; [exact Hs|]. apply (step_timeLeft minutes e _ Hm Hs).
Qed.

(** X3: [cleanupAudio] leaves no token and no resource in the refs, and
    is idempotent: run again on its own result it changes nothing and
    releases nothing. *)
Theorem cleanupAudio_idempotent (s : State) :
  released (fst (cleanupAudio s))
  /\ cleanupAudio (fst (cleanupAudio s)) = (fst (cleanupAudio s), []).
Proof.
  destruct s as [r v]. destruct r. unfold released. simpl.
  repeat split.
Qed.

Lemma cleanupAudio_released (s : State) : released (fst (cleanupAudio s)).
Proof. destruct s as [r v]. destruct r. repeat split. Qed.

Lemma stale_inert (token : string) (s : State) :
  connectionIdRef (refs s) <> token -> inert token s.
Proof.
  intros Hstale.
  assert (E : String.eqb (connectionIdRef (refs s)) token = false)
    by (apply String.eqb_neq; exact Hstale).
  unfold inert, onaudioprocess, onopen, onmessage, onclose, onerror,
    after_getUserMedia, after_connect, start_failed.
  rewrite E. simpl. repeat split.
Qed.

(** X4: tearing down invalidates every generation at once.  After
    [cleanupAudio], and so after the interview has ended, a callback or
    continuation that carries any token (a token is never the empty
    string) changes nothing, plays nothing and sends nothing. *)
Theorem teardown_invalidates (token : string) (captured : list entry)
    (s : State) :
  token <> "" ->
  inert token (fst (cleanupAudio s))
  /\ (isEndedRef (refs s) = false ->
      inert token (fst (handleEndInterview captured s))).
Proof.
  intros Htoken. split.
  - apply stale_inert.
    destruct (cleanupAudio_released s) as (Hid & _).
    rewrite Hid. congruence.
  - intros Hend. apply stale_inert.
    destruct (handleEndInterview_first captured s Hend) as (_ & _ & Hid & _).
    rewrite Hid. congruence.
Qed.

(** X5: after the channel closed or reported an error, every captured
    block is dropped until the channel opens again, while the token, the
    countdown, the ending guard, the log and the raw buffer are as before:
    the session goes on, disconnected. *)
Theorem channel_loss_keeps_session (token : string) (inputSampleRate : D)
    (send : string -> string -> completion unit) (inputData : list number)
    (s : State) :
  let lost := fst (onerror token s) in
  let closed := fst (onclose token s) in
  onaudioprocess token inputSampleRate send inputData lost = Normal (lost, [])
  /\ onaudioprocess token inputSampleRate send inputData closed
     = Normal (closed, [])
  /\ completions (snd (onerror token s)) = []
  /\ completions (snd (onclose token s)) = []
  /\ (connectionIdRef (refs lost), isEndedRef (refs lost),
      transcriptTextRef (refs lost), nextStartTimeRef (refs lost),
      timeLeft (view lost), timerRunning (view lost), transcript (view lost))
     = (connectionIdRef (refs s), isEndedRef (refs s),
        transcriptTextRef (refs s), nextStartTimeRef (refs s),
        timeLeft (view s), timerRunning (view s), transcript (view s))
  /\ (connectionIdRef (refs closed), isEndedRef (refs closed),
      transcriptTextRef (refs closed), nextStartTimeRef (refs closed),
      timeLeft (view closed), timerRunning (view closed),
      transcript (view closed))
     = (connectionIdRef (refs s), isEndedRef (refs s),
        transcriptTextRef (refs s), nextStartTimeRef (refs s),
        timeLeft (view s), timerRunning (view s), transcript (view s)).
Proof.
  cbv zeta. unfold onerror, onclose.
  destruct (String.eqb (connectionIdRef (refs s)) token) eqn:E.
  - destruct s as [r v]. destruct r, v. simpl in *.
    unfold onaudioprocess. simpl. rewrite E. simpl. repeat split.
  - simpl. unfold onaudioprocess. rewrite E. simpl. repeat split.
Qed.

End TeardownFacts.

Section TeardownWitnesses.
#[local] Existing Instance exact_times.

(** The interval of a three-minute session fires, the end button is
    clicked, and the interval fires again: 179 seconds, then 178. *)
Lemma countdown_bounded_witness :
  let s :=
    fst (Component.run 3
           (connecting_events
              ++ [Component.IntervalFired; Component.EndClicked])
           (initial 3)) in
  let s' := fst (Component.step (D := Q) 3 Component.IntervalFired s) in
  ((0 <= timeLeft (view s) <= 3 * 60)%Z
   /\ ((forall now, @Component.IntervalFired Q <> Component.StartClicked now)
       -> (timeLeft (view s') <= timeLeft (view s))%Z)
   /\ (@Component.IntervalFired Q = Component.IntervalFired ->
       timerRunning (view s) = true ->
       timeLeft (view s') = Z.max 0 (timeLeft (view s) - 1)))
  /\ timeLeft (view s) = 179 /\ timeLeft (view s') = 178.
Proof.
  intros s s'. split; [|split; reflexivity].
  apply (countdown_bounded (D := Q) 3
           (connecting_events
              ++ [Component.IntervalFired; Component.EndClicked])
           Component.IntervalFired).
  lia.
Defined.

Lemma teardown_invalidates_witness :
  Reading.inert (D := Q) "1700000000000" (fst (cleanupAudio connected_session))
  /\ Reading.inert (D := Q) "1700000000000"
       (fst (handleEndInterview [] connected_session)).
Proof.
  destruct (teardown_invalidates (D := Q) "1700000000000"%string []
              connected_session ltac:(discriminate)) as [H1 H2].
  split; [exact H1 | apply H2; reflexivity].
Defined.

End TeardownWitnesses.

Section BufferFacts.
Context {D : Type} `{Arith D} `{Rounding}.
Import Reading Playback.
Local Open Scope string_scope.

Lemma append_empty_r (a : string) : a ++ "" = a.
Proof. induction a as [|c a IH]; simpl; [reflexivity | rewrite IH; reflexivity]. Qed.

Lemma append_assoc (a b c : string) : (a ++ b) ++ c = a ++ (b ++ c).
Proof. induction a as [|x a IH]; simpl; [reflexivity | rewrite IH; reflexivity]. Qed.

Lemma texts_app (l1 l2 : list entry) :
  texts (l1 ++ l2) = texts l1 ++ texts l2.
Proof.
  induction l1 as [|e l1 IH]; simpl; [reflexivity|].
  rewrite IH, append_assoc. reflexivity.
Qed.

Lemma texts_merge (r : role) (t : string) (log : list entry) :
  texts (merge r t log) = texts log ++ t.
Proof.
  destruct (last log) as [l|] eqn:E.
  - apply last_Some in E as [init ->]. destruct l as [r' t0].
    destruct (role_eqb r' r) eqn:Er.
    + apply role_eqb_eq in Er. subst r'. rewrite merge_same.
      rewrite !texts_app. simpl. rewrite !append_empty_r, append_assoc.
      reflexivity.
    + rewrite merge_other.
      * change [Entry r' t0; Entry r t]
          with ([Entry r' t0] ++ [Entry r t])%list.
        rewrite app_assoc, (texts_app (init ++ [Entry r' t0])). simpl.
        rewrite append_empty_r. reflexivity.
      * intros ->.
        assert (role_eqb r r = true) by (apply role_eqb_eq; reflexivity).
        congruence.
  - apply last_None in E. subst log. simpl. rewrite append_empty_r.
    reflexivity.
Qed.

Lemma transcribe_texts (r : role) (field : option string) (s : State) :
  texts (transcript (view s)) = transcriptTextRef (refs s) ->
  texts (transcript (view (transcribe r field s)))
  = transcriptTextRef (refs (transcribe r field s)).
Proof.
  intros Hs. unfold transcribe. destruct (truthy field) as [t|]; [|exact Hs].
  destruct s as [f v]. destruct f, v. simpl in *.
  rewrite texts_merge, Hs. reflexivity.
Qed.

Lemma onmessage_texts (token : string) (now : Q) (message : LiveServerMessage)
    (s : State) :
  texts (transcript (view s)) = transcriptTextRef (refs s) ->
  texts (transcript (view (fst (onmessage token now message s))))
  = transcriptTextRef (refs (fst (onmessage token now message s))).
Proof.
  intros Hs. unfold onmessage.
  destruct (negb (String.eqb (connectionIdRef (refs s)) token)); [exact Hs|].
  destruct (play_audio now message s) as [[s1 played]|e] eqn:E; [|exact Hs].
  simpl. apply transcribe_texts, transcribe_texts.
  unfold play_audio in E.
  destruct (truthy (audioData message));
    [|injection E as <- _; exact Hs].
  destruct (audioContextRef (refs s)); [|injection E as <- _; exact Hs].
  destruct (outputAnalyserRef (refs s)); [|injection E as <- _; exact Hs].
  destruct (decodeAudioData s0); [|discriminate E].
  simpl in E. injection E as <- _.
  destruct s as [f v]. destruct f. exact Hs.
Qed.

(** X6: in every run of a mounted component, through starts, failed
    starts, messages whose audio is played or cannot be decoded, and
    endings, the raw text buffer [transcriptTextRef] holds exactly the
    texts of the log entries, one after the other: the fallback transcript
    is the log without its role labels. *)
Theorem raw_buffer_is_log_text (minutes : Z)
    (events : list Component.event) :
  let s := fst (Component.run (D := D) minutes events (initial minutes)) in
  texts (transcript (view s)) = transcriptTextRef (refs s).
Proof.
  cbv zeta.
  apply (run_preserves
           (fun s => texts (transcript (view s)) = transcriptTextRef (refs s)));
    [|reflexivity].
  intros e s Hs.
  destruct (step_log minutes e s)
    as [[-> ->]|[[-> ->]|(token & now & message & -> & ->)]].
  - exact Hs.
  - reflexivity.
  - apply onmessage_texts, Hs.
Qed.

End BufferFacts.

Section DecoderFacts.
Context `{Rounding}.
Import Reading.
Local Open Scope Z_scope.

Lemma list_ind2 {A : Type} (P : list A -> Prop) :
  P [] -> (forall a, P [a]) -> (forall a b l, P l -> P (a :: b :: l)) ->
  forall l, P l.
Proof.
  intros H0 H1 H2.
  fix rec 1.
  intros [|a [|b l]]; [exact H0 | apply H1 | apply H2; apply rec].
Qed.

Lemma pairs_length (bytes : list Z) :
  Nat.even (length bytes) = true ->
  (2 * length (Audio.pairs bytes))%nat = length bytes.
Proof.
  induction bytes as [| a | a b l IH] using list_ind2; intros He.
  - reflexivity.
  - discriminate He.
  - change (length (a :: b :: l)) with (S (S (length l))) in *.
    change (Audio.pairs (a :: b :: l))
      with (Audio.int16_of_pair a b :: Audio.pairs l).
    simpl in He. specialize (IH He). simpl length. lia.
Qed.

Lemma pairs_int16 (bytes : list Z) :
  Forall byte bytes -> Forall int16 (Audio.pairs bytes).
Proof.
  induction bytes as [| a | a b l IH] using list_ind2; intros Hb.
  - apply Forall_nil_2.
  - apply Forall_nil_2.
  - inversion_clear Hb as [|? ? Ha Hb']. inversion_clear Hb' as [|? ? Hb0 Hl].
    change (Audio.pairs (a :: b :: l))
      with (Audio.int16_of_pair a b :: Audio.pairs l).
    apply Forall_cons_2; [|apply IH, Hl].
    unfold byte in Ha, Hb0. unfold int16, Audio.int16_of_pair. cbv zeta.
    destruct (32768 <=? a + 256 * b) eqn:E;
      [apply Z.leb_le in E | apply Z.leb_gt in E]; lia.
Qed.

Lemma ToUint8_bytes (l : list Z) : Forall byte (map ToUint8 l).
Proof.
  apply List.Forall_forall. intros b Hin.
  apply in_map_iff in Hin as (z & <- & _).
  unfold byte, ToUint8. apply Z.mod_pos_bound. lia.
Qed.

(** X7: whatever base64 text it is given, when [base64ToFloat32Array]
    returns, it returns one sample for every two decoded bytes, and every
    sample lies in [-1, 32767/32768]. *)
Theorem decoder_output_normalized (base64 : string) (decoded : list number) :
  Audio.base64ToFloat32Array base64 = Some decoded ->
  Forall decoded_sample decoded
  /\ exists binary, Base64.atob base64 = Some binary
                    /\ length binary = (2 * length decoded)%nat.
Proof.
  unfold Audio.base64ToFloat32Array.
  destruct (Base64.atob base64) as [binary|]; [|discriminate].
  rewrite bytes_of_binary_map. unfold Audio.Int16Array_of_buffer.
  destruct (Nat.even (length (map ToUint8 binary))) eqn:He; [|discriminate].
  intros [= <-]. rewrite dequantize_map. split.
  - apply List.Forall_forall. intros y Hin.
    apply in_map_iff in Hin as (z & <- & Hz).
    pose proof (pairs_int16 _ (ToUint8_bytes binary)) as Hall.
    rewrite List.Forall_forall in Hall. specialize (Hall z Hz).
    unfold int16 in Hall.
    exists (z # 32768)%Q. split; [reflexivity|].
    split; unfold Qle; simpl; lia.
  - exists binary. split; [reflexivity|].
    rewrite length_map, (pairs_length _ He), length_map. reflexivity.
Qed.

(** X8: a chunk whose payload has an odd number of bytes is rejected: for
    every odd-length byte string, decoding its base64 text throws, in
    [base64ToFloat32Array] and so in [decodeAudioData]. *)
Theorem odd_payload_rejected (binary : list Z) :
  Forall byte binary ->
  Nat.even (length binary) = false ->
  exists base64,
    Base64.btoa binary = Some base64
    /\ Audio.base64ToFloat32Array base64 = None
    /\ decodeAudioData base64 = Throw "decode"%string.
Proof.
  intros Hb Hodd.
  destruct (atob_btoa binary Hb) as (base64 & Hbtoa & Hatob).
  exists base64. split; [exact Hbtoa|].
  assert (Hnone : Audio.base64ToFloat32Array base64 = None).
  { unfold Audio.base64ToFloat32Array. rewrite Hatob, bytes_of_binary_map.
    unfold Audio.Int16Array_of_buffer. rewrite length_map, Hodd. reflexivity. }
  split; [exact Hnone|]. unfold decodeAudioData. rewrite Hnone. reflexivity.
Qed.

(** X9: when the audio of a message cannot be decoded, the whole message
    is abandoned: the state is left exactly as it was, so the transcript
    fragments the message carried are not recorded either. *)
Theorem undecodable_audio_drops_message (token : string) (now : Q)
    (message : LiveServerMessage) (s : State) (data e : string) :
  truthy (audioData message) = Some data ->
  decodeAudioData data = Throw e ->
  audioContextRef (refs s) <> None ->
  outputAnalyserRef (refs s) <> None ->
  fst (onmessage token now message s) = s
  /\ Playback.start_times (snd (onmessage token now message s)) = [].
Proof.
  intros Hdata Hthrow Hctx Han. unfold onmessage, play_audio.
  rewrite Hdata, Hthrow.
  destruct (audioContextRef (refs s)); [|congruence].
  destruct (outputAnalyserRef (refs s)); [|congruence].
  destruct (negb (String.eqb (connectionIdRef (refs s)) token));
    split; reflexivity.
Qed.

End DecoderFacts.

Lemma decoder_output_normalized_witness :
  Forall decoded_sample [Fin (0 # 32768); Fin (-32768 # 32768)]
  /\ exists binary, Base64.atob "AAAAgA=="%string = Some binary
                    /\ length binary = (2 * 2)%nat.
Proof.
  apply (decoder_output_normalized "AAAAgA=="%string
           [Fin (0 # 32768); Fin (-32768 # 32768)]).
  reflexivity.
Defined.

Lemma odd_payload_rejected_witness :
  exists base64,
    Base64.btoa [1; 2; 255] = Some base64
    /\ Audio.base64ToFloat32Array base64 = None
    /\ decodeAudioData base64 = Throw "decode"%string.
Proof.
  apply (odd_payload_rejected [1; 2; 255]).
  - repeat (apply Forall_cons_2; [unfold byte; lia|]). apply Forall_nil_2.
  - reflexivity.
Defined.

Section DecoderWitnesses.
#[local] Existing Instance exact_times.

Lemma undecodable_audio_drops_message_witness :
  fst (onmessage "1700000000000" 5%Q
         (Message (Some "AAAA") (Some "Hello") (Some "Hi"))%string
         connected_session)
  = connected_session
  /\ Playback.start_times
       (snd (onmessage "1700000000000" 5%Q
               (Message (Some "AAAA") (Some "Hello") (Some "Hi"))%string
               connected_session)) = [].
Proof.
  apply (undecodable_audio_drops_message "1700000000000" 5%Q
           (Message (Some "AAAA") (Some "Hello") (Some "Hi"))%string
           connected_session "AAAA" "decode");
    first [reflexivity | discriminate].
Defined.

End DecoderWitnesses.

Section ReencodeFacts.

Lemma requantize_sample (z : Z) :
  int16 z ->
  ToInt16 (Audio.scale (Audio.clamp (Audio.dequantize_sample z)))
  = if 0 <? z then z - 1 else z.
Proof.
  unfold int16. intros Hz. rewrite quantize_sample_spec.
  unfold Audio.dequantize_sample, Spec.stored_int16, Spec.clamp.
  assert (Qsign_neg ((z # 32768) - -1) = false) as ->.
  { apply Qsign_neg_false. unfold Qle. simpl. lia. }
  assert (Qsign_neg (1 - (z # 32768)) = false) as ->.
  { apply Qsign_neg_false. unfold Qle. simpl. lia. }
  destruct (0 <? z) eqn:Epos.
  - apply Z.ltb_lt in Epos.
    assert (Qsign_neg (z # 32768) = false) as ->.
    { apply Qsign_neg_false. unfold Qle. simpl. lia. }
    unfold Qtrunc.
    assert (Qsign_neg ((z # 32768) * 32767) = false) as ->.
    { apply Qsign_neg_false. unfold Qle. simpl. lia. }
    unfold Qfloor. simpl. divmod.
  - apply Z.ltb_ge in Epos.
    destruct (Qsign_neg (z # 32768)) eqn:Es.
    + rewrite (Qtrunc_comp _ (inject_Z z)); [apply Qtrunc_Z|].
      unfold Qeq. simpl. lia.
    + apply Qsign_neg_false in Es. unfold Qle in Es. simpl in Es.
      assert (z = 0) as -> by lia. reflexivity.
Qed.

(** X10: encoding is not the inverse of decoding.  Decoding a chunk and
    encoding the result again lowers every positive 16-bit sample by one
    and keeps the zero and negative ones, because a non-negative sample is
    divided by 32768 and multiplied back by 32767. *)
Theorem reencode_lowers_positive (chunk : list Z) :
  Forall int16 chunk ->
  Audio.quantize (Audio.dequantize chunk)
  = map (fun z => if 0 <? z then z - 1 else z) chunk.
Proof.
  intros Hchunk. rewrite quantize_map, dequantize_map, map_map.
  apply map_ext_in. intros z Hin.
  rewrite List.Forall_forall in Hchunk.
  apply requantize_sample, Hchunk, Hin.
Qed.

End ReencodeFacts.

Lemma reencode_lowers_positive_witness :
  Audio.quantize (Audio.dequantize [32767; 1; 0; -1; -32768])
  = map (fun z => if 0 <? z then z - 1 else z) [32767; 1; 0; -1; -32768].
Proof.
  apply (reencode_lowers_positive [32767; 1; 0; -1; -32768]).
  repeat (apply Forall_cons_2; [unfold int16; lia|]). apply Forall_nil_2.
Defined.

Section LifecycleFacts.
Context {D : Type} `{Arith D} `{Rounding}.
Import Reading SessionView.
Local Open Scope string_scope.

(** X11: the mute flag gates capture and nothing else: while muted every
    captured block is dropped, and a message is handled in the same way,
    with the same playback and the same transcript, whatever the flag. *)
Theorem mute_only_gates_capture (token : string) (inputSampleRate : D)
    (send : string -> string -> completion unit) (inputData : list number)
    (now : Q) (message : LiveServerMessage) (isMicOn : bool) (s : State) :
  onaudioprocess token inputSampleRate send inputData (sync_mic false s)
  = Normal (sync_mic false s, [])
  /\ onmessage token now message (sync_mic isMicOn s)
     = (sync_mic isMicOn (fst (onmessage token now message s)),
        snd (onmessage token now message s)).
Proof.
  split.
  - unfold onaudioprocess, sync_mic. destruct s as [r v]. destruct r. simpl.
    rewrite !orb_true_r. reflexivity.
  - unfold onmessage, sync_mic, play_audio, transcribe.
    destruct s as [r v].
    destruct r as [cid ? ? ? ? ? actx oan ? ? ? ?]. destruct v. simpl.
    destruct (negb (String.eqb cid token)); [reflexivity|].
    destruct (truthy (audioData message)) as [data|];
      [destruct actx; [destruct oan|]|];
      try (destruct (decodeAudioData data)); simpl;
      destruct (truthy (inputTranscription message));
      destruct (truthy (outputTranscription message)); reflexivity.
Qed.

(** X12: a start leaves nothing of the session before it.  After
    [startSession] has reset the state, from any state at all: the token is
    the new one, the log and the raw buffer are empty, the playback cursor
    is 0, the countdown is the full duration, the ending guard is clear so
    that the new session can be ended once, and every callback that still
    carries another token does nothing. *)
Theorem restart_is_clean (token : string) (minutes : Z) (s : State)
    (captured : list entry) :
  let started := fst (begin_session token minutes s) in
  connectionIdRef (refs started) = token
  /\ transcript (view started) = []
  /\ transcriptTextRef (refs started) = ""
  /\ nextStartTimeRef (refs started) = 0%Q
  /\ timeLeft (view started) = (minutes * 60)%Z
  /\ isConnectedRef (refs started) = false
  /\ activeSessionRef (refs started) = None
  /\ completions (snd (handleEndInterview captured started))
     = [OnComplete (finalTranscript captured "")]
  /\ (forall old, old <> token -> inert old started).
Proof.
  cbv zeta.
  assert (Hstate : exists v,
            fst (begin_session token minutes s)
            = Build_State
                (Build_Refs token false (isMicOnRef (refs s)) false None None
                   None (outputAnalyserRef (refs s)) None None 0%Q "")
                v
            /\ transcript v = [] /\ timeLeft v = (minutes * 60)%Z).
  { destruct s as [r v]. destruct r, v. simpl. eexists.
    split; [reflexivity|]. split; reflexivity. }
  destruct Hstate as (v & -> & Htr & Hleft).
  split; [reflexivity|]. split; [exact Htr|].
  split; [reflexivity|]. split; [reflexivity|]. split; [exact Hleft|].
  split; [reflexivity|]. split; [reflexivity|].
  split; [apply (handleEndInterview_first captured); reflexivity|].
  intros old Hold. apply stale_inert. simpl. congruence.
Qed.

(** X13: when the start fails in the current generation, the attempt is
    undone: every resource the session holds is released (the session
    closed, the tracks of the stream stopped, both audio contexts closed,
    the processor disconnected) and forgotten, the token is invalidated so
    that no late callback can act, the start screen is shown again with
    the reason, the countdown of a session that had started is stopped,
    and nothing is delivered to [onComplete]. *)
Theorem failed_start_is_undone (token message : string) (s : State) :
  connectionIdRef (refs s) = token ->
  let failed := fst (start_failed token message s) in
  let effects := snd (start_failed token message s) in
  released failed
  /\ (forall h, activeSessionRef (refs s) = Some h ->
                In (SessionClose h) effects)
  /\ (forall h, streamRef (refs s) = Some h -> In (StopTracks h) effects)
  /\ (forall h, inputAudioContextRef (refs s) = Some h ->
                In (ContextClose h) effects)
  /\ (forall h, audioContextRef (refs s) = Some h ->
                In (ContextClose h) effects)
  /\ (forall h, processorRef (refs s) = Some h -> In (Disconnect h) effects)
  /\ hasStarted (view failed) = false
  /\ error (view failed) = Some ("Failed to start session. " ++ message)
  /\ (hasStarted (view s) = true ->
      timerRunning (view (rerender s failed)) = false)
  /\ completions effects = []
  /\ isEndedRef (refs failed) = isEndedRef (refs s)
  /\ (forall late, late <> "" -> inert late failed).
Proof.
  intros Htoken. cbv zeta.
  assert (Hrel : released (fst (start_failed token message s))
                 /\ isEndedRef (refs (fst (start_failed token message s)))
                    = isEndedRef (refs s)).
  { unfold start_failed. rewrite Htoken, String.eqb_refl.
    destruct s as [r v]. destruct r, v. repeat split. }
  destruct Hrel as [Hrel Hend].
  split; [exact Hrel|].
  assert (Heffects : snd (start_failed token message s)
                     = Console "Init Error:"
                         :: (release SessionClose (activeSessionRef (refs s))
                               ++ release StopTracks (streamRef (refs s))
                               ++ release ContextClose
                                    (inputAudioContextRef (refs s))
                               ++ release ContextClose
                                    (audioContextRef (refs s))
                               ++ release Disconnect (processorRef (refs s)))%list).
  { unfold start_failed. rewrite Htoken, String.eqb_refl. reflexivity. }
  rewrite Heffects.
  repeat (split; [intros h ->; simpl; rewrite ?in_app_iff; simpl; tauto|]).
  split; [unfold start_failed; rewrite Htoken, String.eqb_refl;
          destruct s as [r v]; destruct v; reflexivity|].
  split; [unfold start_failed; rewrite Htoken, String.eqb_refl;
          destruct s as [r v]; destruct v; reflexivity|].
  split.
  { intros Hstarted. unfold start_failed. rewrite Htoken, String.eqb_refl.
    destruct s as [r v]. destruct r, v. simpl in *. subst.
    reflexivity. }
  split.
  { destruct (activeSessionRef (refs s)), (streamRef (refs s)),
      (inputAudioContextRef (refs s)), (audioContextRef (refs s)),
      (processorRef (refs s)); reflexivity. }
  split; [exact Hend|].
  intros late Hlate. apply stale_inert.
  destruct Hrel as (Hid & _). rewrite Hid. congruence.
Qed.

End LifecycleFacts.

Section LifecycleWitnesses.
#[local] Existing Instance exact_times.

(** The channel could not be opened: [live.connect] rejected in a session
    that holds its stream, both contexts and the processor. *)
Lemma failed_start_is_undone_witness :
  let failed :=
    fst (start_failed "1700000000000" "Network error"
           connecting_session) in
  let effects :=
    snd (start_failed "1700000000000" "Network error"
           connecting_session) in
  Reading.released failed
  /\ (forall h, activeSessionRef (refs connecting_session) = Some h ->
                In (SessionClose h) effects)
  /\ (forall h, streamRef (refs connecting_session) = Some h ->
                In (StopTracks h) effects)
  /\ (forall h, inputAudioContextRef (refs connecting_session) = Some h ->
                In (ContextClose h) effects)
  /\ (forall h, audioContextRef (refs connecting_session) = Some h ->
                In (ContextClose h) effects)
  /\ (forall h, processorRef (refs connecting_session) = Some h ->
                In (Disconnect h) effects)
  /\ hasStarted (view failed) = false
  /\ error (view failed)
     = Some ("Failed to start session. " ++ "Network error")%string
  /\ (hasStarted (view connecting_session) = true ->
      timerRunning (view (rerender connecting_session failed)) = false)
  /\ completions effects = []
  /\ isEndedRef (refs failed) = isEndedRef (refs connecting_session)
  /\ (forall late, late <> ""%string -> Reading.inert (D := Q) late failed).
Proof.
  apply (failed_start_is_undone (D := Q) "1700000000000" "Network error"
           connecting_session).
  reflexivity.
Defined.

End LifecycleWitnesses.

(** * Properties of the application and its views *)

Section AppFacts.
Import Types App Views.
Local Open Scope string_scope.

Variable analyzeResume :
  string -> option string -> option string
  -> completion (option ResumeAnalysis).
Variable generateInterviewReport :
  string -> ResumeAnalysis -> completion (option InterviewReport).

Lemma is_step_eq (x y : AppStep) : is_step x y = true <-> x = y.
Proof. destruct x, y; simpl; split; congruence. Qed.

Lemma dispatch_invariant (a : App.State) (e : event) :
  settled a ->
  settled (App.dispatch analyzeResume generateInterviewReport a e).
Proof.
  unfold settled. intros (Hup & Hnone & Hload & Hrep). unfold App.dispatch.
  destruct (rendered e a) eqn:Hr; [|repeat split; assumption].
  destruct e as [text imageData mimeType| |dur|transcript|];
    simpl in Hr; apply andb_prop in Hr || idtac.
  - destruct Hr as [Hs _]. apply is_step_eq in Hs.
    simpl. unfold handleAnalyze.
    destruct (analyzeResume text imageData mimeType); simpl.
    + split; [congruence|]. split; [tauto|]. split; [reflexivity|].
      intros _. apply Hrep. congruence.
    + repeat split; assumption.
  - destruct Hr as [Hs Ha]. apply is_step_eq in Hs. simpl.
    destruct (analysis a); [|discriminate Ha].
    repeat split; try congruence. intros _. apply Hrep. congruence.
  - apply is_step_eq in Hr. simpl.
    assert (analysis a <> None)
      by (intros E; destruct (Hnone E); congruence).
    repeat split; try congruence; try tauto.
    intros _. apply Hrep. congruence.
  - destruct Hr as [Hs Ha]. apply is_step_eq in Hs. simpl.
    unfold handleInterviewComplete.
    destruct (analysis a) as [an|] eqn:Ean; [|discriminate Ha].
    destruct (generateInterviewReport (report_input transcript) an); simpl;
      rewrite ?Ean; repeat split; congruence.
  - simpl. repeat split; first [reflexivity | tauto].
Qed.

Lemma run_invariant (events : list event) :
  forall a,
    settled a ->
    settled (App.run analyzeResume generateInterviewReport events a).
Proof.
  unfold App.run.
  induction events as [|e events IH]; intros a Ha; [exact Ha|].
  simpl. apply IH, dispatch_invariant, Ha.
Qed.

Lemma initial_invariant : settled App.initial.
Proof. unfold settled. simpl. repeat split; try tauto; congruence. Qed.

(** X14: whatever the user does and whatever the two services answer,
    the [null] that [JSON.parse] may return included: on the upload step
    the application has no analysis; without an analysis it is on the
    upload step or on the analysis step, so the interview and the report
    are only reached with one; no handler leaves the loading flag set; a
    report is held only on the report step; and on the analysis step
    without an analysis, where a [null] answer leaves it, nothing that
    triggers an event is rendered, so that no later event changes the
    state. *)
Theorem app_invariant (events : list event) :
  let a := App.run analyzeResume generateInterviewReport events App.initial in
  (step a = UPLOAD -> analysis a = None)
  /\ (analysis a = None -> step a = UPLOAD \/ step a = ANALYSIS)
  /\ isLoading a = false
  /\ (step a <> REPORT -> report a = None)
  /\ (step a = ANALYSIS -> analysis a = None ->
      forall later,
        App.run analyzeResume generateInterviewReport later a = a).
Proof.
  cbv zeta.
  destruct (run_invariant events App.initial initial_invariant)
    as (Hup & Hnone & Hload & Hrep).
  repeat (split; [assumption|]).
  intros Hs Ha later.
  set (a := App.run analyzeResume generateInterviewReport events App.initial)
    in *.
  assert (Hnothing : forall e,
            App.dispatch analyzeResume generateInterviewReport a e = a).
  { intros e. unfold App.dispatch.
    destruct e; simpl; rewrite Hs, ?Ha; reflexivity. }
  unfold App.run. induction later as [|e later IH]; [reflexivity|].
  simpl. rewrite Hnothing. exact IH.
Qed.

Lemma nothing_rendered (a : App.State) :
  step a = REPORT -> report a = None -> forall e, App.dispatch analyzeResume generateInterviewReport a e = a.
Proof.
  intros Hs Hr e. unfold App.dispatch.
  destruct e; simpl; rewrite Hs, ?Hr; reflexivity.
Qed.

(** X15: when the report cannot be generated, the application is left on
    the report step with no report and the message "Failed to generate
    report."; in that state nothing that triggers an event is rendered, so
    that no later event changes the state. *)
Theorem report_failure_is_final (events later : list event)
    (transcript e : string) (initialAnalysis : ResumeAnalysis) :
  let a := App.run analyzeResume generateInterviewReport events App.initial in
  rendered (InterviewDone transcript) a = true ->
  analysis a = Some initialAnalysis ->
  generateInterviewReport (report_input transcript) initialAnalysis
  = Throw e ->
  let failed := App.dispatch analyzeResume generateInterviewReport a
                  (InterviewDone transcript) in
  step failed = REPORT
  /\ report failed = None
  /\ error failed = Some "Failed to generate report."
  /\ transcriptData failed = transcript
  /\ App.run analyzeResume generateInterviewReport later failed = failed.
Proof.
  cbv zeta. intros Hr Han Hthrow.
  destruct (run_invariant events App.initial initial_invariant)
    as (_ & _ & _ & Hrep).
  assert (Hnone : report (App.run analyzeResume generateInterviewReport events App.initial) = None).
  { apply Hrep. simpl in Hr. apply andb_prop in Hr as [Hs _].
    apply is_step_eq in Hs. congruence. }
  assert (Hfailed :
            App.dispatch analyzeResume generateInterviewReport
              (App.run analyzeResume generateInterviewReport events App.initial) (InterviewDone transcript)
            = App.Build_State REPORT (Some initialAnalysis)
                (duration (App.run analyzeResume generateInterviewReport events App.initial)) None transcript false
                (Some "Failed to generate report.")).
  { unfold App.dispatch. rewrite Hr. simpl.
    unfold handleInterviewComplete. rewrite Han, Hthrow, Hnone.
    reflexivity. }
  rewrite Hfailed. simpl. repeat split.
  unfold App.run. induction later as [|e' later IH]; [reflexivity|].
  simpl. rewrite nothing_rendered by reflexivity. exact IH.
Qed.

(** X16: the restart button, whenever it is rendered, brings the
    application back to its initial state, except that the duration chosen
    last is remembered. *)
Theorem restart_is_initial (events : list event) :
  let a := App.run analyzeResume generateInterviewReport events App.initial in
  rendered Restart a = true ->
  App.dispatch analyzeResume generateInterviewReport a Restart
  = App.Build_State UPLOAD None (duration a) None "" false None.
Proof.
  cbv zeta. intros Hr.
  destruct (run_invariant events App.initial initial_invariant)
    as (_ & _ & Hload & _).
  unfold App.dispatch. rewrite Hr. simpl. unfold handleRestart.
  rewrite Hload. reflexivity.
Qed.

End AppFacts.

Section UploadFacts.
Import Views ResumeUploader Gemini.
Local Open Scope string_scope.

Lemma split_free (sep : ascii) (s : string) :
  free_of sep s -> split sep s = [s].
Proof.
  unfold free_of. induction s as [|c s IH]; intros Hfree; [reflexivity|].
  simpl in *. destruct (Ascii.eqb c sep) eqn:E.
  - apply Ascii.eqb_eq in E. tauto.
  - rewrite IH by tauto. reflexivity.
Qed.

Lemma split_at (sep : ascii) (a b : string) :
  free_of sep a -> split sep (a ++ String sep b) = a :: split sep b.
Proof.
  unfold free_of. induction a as [|c a IH]; intros Hfree; simpl.
  - rewrite Ascii.eqb_refl. reflexivity.
  - simpl in Hfree. destruct (Ascii.eqb c sep) eqn:E.
    + apply Ascii.eqb_eq in E. tauto.
    + rewrite IH by tauto. reflexivity.
Qed.

Lemma free_of_append (c : ascii) (a b : string) :
  free_of c a -> free_of c b -> free_of c (a ++ b).
Proof.
  unfold free_of. induction a as [|x a IH]; intros Ha Hb; simpl in *;
    [exact Hb | tauto].
Qed.

(** X17: a file read as a data URL reaches the model as an attachment with
    exactly its payload and its type, unless the payload or the type is
    empty: then the request is the prompt alone, which still says
    "[See attached file]". *)
Theorem upload_request (fileType payload : string) :
  free_of ","%char fileType ->
  free_of ","%char payload ->
  handleFileUpload (dataURL fileType payload) fileType
  = ("", Some payload, Some fileType)
  /\ analysis_parts "" (Some payload) (Some fileType)
     = TextPart (analysis_prompt_head ++ "[See attached file]"
                   ++ analysis_prompt_tail)
         :: match payload, fileType with
            | String _ _, String _ _ => [InlineData payload fileType]
            | _, _ => []
            end.
Proof.
  intros Htype Hpayload. split.
  - unfold handleFileUpload, dataURL.
    replace ("data:" ++ fileType ++ ";base64," ++ payload)
      with (("data:" ++ fileType ++ ";base64") ++ String "," payload).
    + rewrite split_at.
      * rewrite split_free by exact Hpayload. reflexivity.
      * apply (free_of_append _ "data:");
          [|apply free_of_append; [exact Htype|]];
          unfold free_of; simpl; intuition discriminate.
    + rewrite !append_assoc. reflexivity.
  - unfold analysis_parts, analysis_prompt. simpl.
    destruct payload, fileType; reflexivity.
Qed.

End UploadFacts.

Lemma upload_request_witness :
  ResumeUploader.handleFileUpload
    (ResumeUploader.dataURL "application/pdf" "JVBERi0=") "application/pdf"
  = (""%string, Some "JVBERi0="%string, Some "application/pdf"%string)
  /\ Gemini.analysis_parts "" (Some "JVBERi0="%string)
       (Some "application/pdf"%string)
     = [Gemini.TextPart
          (Gemini.analysis_prompt_head ++ "[See attached file]"
             ++ Gemini.analysis_prompt_tail)%string;
        Gemini.InlineData "JVBERi0=" "application/pdf"].
Proof.
  apply (upload_request "application/pdf" "JVBERi0=");
    unfold Views.free_of; simpl; intuition discriminate.
Defined.

(** The model answers a resume with the JSON text [null]: the application
    is left on the analysis step with no analysis, for good. *)
Lemma app_invariant_witness :
  let a :=
    App.run analysed_null never_reports [App.Analyze "resume" None None]
      App.initial in
  (App.step a = Types.ANALYSIS /\ App.analysis a = None)
  /\ forall later, App.run analysed_null never_reports later a = a.
Proof.
  intros a. split; [split; reflexivity|].
  destruct (app_invariant analysed_null never_reports
              [App.Analyze "resume" None None])
    as (_ & _ & _ & _ & Hstuck).
  apply Hstuck; reflexivity.
Defined.

Lemma report_failure_is_final_witness :
  let events :=
    [App.Analyze "resume" None None; App.Continue;
     App.SelectDuration Types.Five]%string in
  let a := App.run always_analysed never_reports events App.initial in
  let failed :=
    App.dispatch always_analysed never_reports a
      (App.InterviewDone "Candidate: hello") in
  App.step failed = Types.REPORT
  /\ App.report failed = None
  /\ App.error failed = Some "Failed to generate report."%string
  /\ App.transcriptData failed = "Candidate: hello"%string
  /\ App.run always_analysed never_reports [App.Restart; App.Continue] failed
     = failed.
Proof.
  intros events a failed.
  apply (report_failure_is_final always_analysed never_reports events
           [App.Restart; App.Continue] "Candidate: hello" "unavailable"
           sample_analysis); reflexivity.
Defined.

Lemma restart_is_initial_witness :
  let events :=
    [App.Analyze "resume" None None; App.Continue;
     App.SelectDuration Types.Five; App.InterviewDone "Candidate: hello"]%string in
  let a := App.run always_analysed always_reports events App.initial in
  App.dispatch always_analysed always_reports a App.Restart
  = App.Build_State Types.UPLOAD None (App.duration a) None "" false None.
Proof.
  intros events a.
  apply (restart_is_initial always_analysed always_reports events).
  reflexivity.
Defined.

Section ReportViewFacts.
Import Types ReportView Views.
Local Open Scope string_scope.

Variable stringify : list SavedReport -> string.
Variable parse : string -> completion (list SavedReport).








End ReportViewFacts.



Section ServiceFacts.
Import Types App Gemini.
Local Open Scope string_scope.

Variable generateContent : list part -> completion (option string).
Variable parseAnalysis : string -> completion (option ResumeAnalysis).
Variable generateInterviewReport :
  string -> ResumeAnalysis -> completion (option InterviewReport).

(** X21: when the model answers a resume with no text, or with an empty
    one, [analyzeResume] throws, and the application stays where it was,
    with the same analysis and report, not loading, and with its own
    message in place of the cause. *)
Theorem empty_answer_keeps_upload (text : string)
    (imageData mimeType : option string) (a : App.State) :
  truthy (match generateContent (analysis_parts text imageData mimeType) with
          | Normal answer => answer
          | Throw _ => None
          end) = None ->
  rendered (Analyze text imageData mimeType) a = true ->
  (exists e,
      analyzeResume generateContent parseAnalysis text imageData mimeType
      = Throw e)
  /\ App.dispatch (analyzeResume generateContent parseAnalysis)
       generateInterviewReport a (Analyze text imageData mimeType)
     = App.Build_State UPLOAD (analysis a) (duration a) (report a)
         (transcriptData a) false
         (Some ("Unable to analyze resume. "
                  ++ "Please try again or use a clearer image/text.")).
Proof.
  intros Hanswer Hr.
  assert (Hthrow : exists e,
             analyzeResume generateContent parseAnalysis text imageData
               mimeType = Throw e).
  { unfold analyzeResume, respond.
    destruct (generateContent (analysis_parts text imageData mimeType))
      as [answer|e]; [|exists e; reflexivity].
    rewrite Hanswer. eexists. reflexivity. }
  split; [exact Hthrow|].
  destruct Hthrow as [e He].
  unfold App.dispatch. rewrite Hr. simpl. unfold handleAnalyze. rewrite He.
  simpl in Hr. apply andb_prop in Hr as [Hs _]. apply is_step_eq in Hs.
  rewrite Hs. reflexivity.
Qed.

End ServiceFacts.

Lemma empty_answer_keeps_upload_witness :
  (exists e,
      Gemini.analyzeResume (fun _ => Normal (Some ""%string))
        (fun _ => Normal (Some sample_analysis)) "resume" None None
      = Throw e)
  /\ App.dispatch
       (Gemini.analyzeResume (fun _ => Normal (Some ""%string))
          (fun _ => Normal (Some sample_analysis)))
       never_reports App.initial (App.Analyze "resume" None None)
     = App.Build_State Types.UPLOAD None Types.Three None "" false
         (Some ("Unable to analyze resume. "
                  ++ "Please try again or use a clearer image/text.")%string).
Proof.
  apply (empty_answer_keeps_upload (fun _ => Normal (Some ""%string))
           (fun _ => Normal (Some sample_analysis)) never_reports
           "resume" None None App.initial); reflexivity.
Defined.

Section RestartWitness.
#[local] Existing Instance exact_times.

Lemma restart_is_clean_witness :
  Reading.inert (D := Q) "1699999999999"
    (fst (begin_session "1700000000000" 5 connected_session)).
Proof.
  destruct (restart_is_clean (D := Q) "1700000000000" 5 connected_session [])
    as (_ & _ & _ & _ & _ & _ & _ & _ & Hinert).
  apply Hinert. discriminate.
Defined.

End RestartWitness.

Section OpeningFacts.
Context {D : Type} `{Arith D} `{Rounding}.
Import Transcript Playback.
Local Open Scope string_scope.

(** X22: capture starts only when both halves of the connection are in
    place.  In the current generation with the microphone on, once the
    channel has opened and [live.connect] has returned its session, in
    either order, a captured block is sent to that session; after only one
    of the two it is still dropped. *)
Theorem capture_needs_open_and_session (token : string) (session : handle)
    (inputSampleRate : D) (send : string -> string -> completion unit)
    (inputData : list number) (s : State) :
  connectionIdRef (refs s) = token ->
  isMicOnRef (refs s) = true ->
  isConnectedRef (refs s) = false ->
  activeSessionRef (refs s) = None ->
  let opened := fst (onopen token s) in
  let connected := fst (after_connect token session s) in
  let both := fst (after_connect token session opened) in
  fst (onopen token connected) = both
  /\ onaudioprocess token inputSampleRate send inputData opened
     = Normal (opened, [])
  /\ onaudioprocess token inputSampleRate send inputData connected
     = Normal (connected, [])
  /\ exists base64,
       Audio.float32ArrayToBase64 (processingData inputSampleRate inputData)
       = Some base64
       /\ onaudioprocess token inputSampleRate send inputData both
          = Normal (both, [SendRealtimeInput session "audio/pcm;rate=16000"
                             base64]).
Proof.
  intros Htoken Hmic Hflag Hsession. cbv zeta.
  destruct (encoder_returns (processingData inputSampleRate inputData))
    as [base64 He].
  destruct s as [r v].
  destruct r as [cid flag mic ended active ? ? ? ? ? ? ?]. destruct v.
  simpl in Htoken, Hmic, Hflag, Hsession. subst cid mic flag active.
  unfold onopen, after_connect, onaudioprocess. simpl.
  repeat (rewrite String.eqb_refl; simpl).
  split; [reflexivity|]. split; [reflexivity|]. split; [reflexivity|].
  exists base64. split; [exact He|]. rewrite He.
  destruct (send "audio/pcm;rate=16000" base64); reflexivity.
Qed.

Lemma log_after_no_adjacent (r : role) (field : option string)
    (log : list entry) :
  no_adjacent (map entry_role log) ->
  no_adjacent (map entry_role (log_after r field log)).
Proof.
  intros Hlog. destruct field as [t|]; [|exact Hlog].
  apply (receive_no_adjacent log (r, t)), Hlog.
Qed.

Lemma onmessage_no_adjacent (token : string) (now : Q)
    (message : LiveServerMessage) (s : State) :
  no_adjacent (map entry_role (transcript (view s))) ->
  no_adjacent
    (map entry_role (transcript (view (fst (onmessage token now message s))))).
Proof.
  intros Hs. unfold onmessage.
  destruct (negb (String.eqb (connectionIdRef (refs s)) token)); [exact Hs|].
  destruct (play_audio now message s) as [[s1 played]|e] eqn:E; [|exact Hs].
  simpl. rewrite !transcribe_transcript.
  apply log_after_no_adjacent, log_after_no_adjacent.
  assert (Hview : transcript (view s1) = transcript (view s)).
  { unfold play_audio in E.
    destruct (truthy (audioData message)) as [data|];
      [|injection E as <- _; reflexivity].
    destruct (audioContextRef (refs s)); [|injection E as <- _; reflexivity].
    destruct (outputAnalyserRef (refs s)); [|injection E as <- _; reflexivity].
    destruct (decodeAudioData data); [|discriminate E].
    simpl in E. injection E as <- _. reflexivity. }
  rewrite Hview. exact Hs.
Qed.

(** X23: over whole messages too, in every run of a mounted component,
    whatever the messages carry, whether their audio is played or cannot
    be decoded, and through starts, failed starts and endings, no two
    adjacent entries of the log have the same role. *)
Theorem log_alternates_over_messages (minutes : Z)
    (events : list Component.event) :
  alternating
    (transcript
       (view (fst (Component.run (D := D) minutes events
                     (initial minutes))))).
Proof.
  apply no_adjacent_alternating.
  apply (run_preserves
           (fun s => no_adjacent (map entry_role (transcript (view s)))));
    [|exact I].
  intros e s Hs.
  destruct (step_log minutes e s)
    as [[-> _]|[[-> _]|(token & now & message & -> & _)]].
  - exact Hs.
  - exact I.
  - apply onmessage_no_adjacent, Hs.
Qed.

End OpeningFacts.

Lemma capture_needs_open_and_session_witness :
  let s :=
    fst (after_getUserMedia "1700000000000" 1%nat 2%nat 3%nat 4%nat 5%nat
           (fst (begin_session "1700000000000" 3 (initial 3)))) in
  let opened := fst (onopen "1700000000000" s) in
  let connected := fst (after_connect "1700000000000" 9%nat s) in
  let both := fst (after_connect "1700000000000" 9%nat opened) in
  fst (onopen "1700000000000" connected) = both
  /\ onaudioprocess "1700000000000" 48000%Q (fun _ _ => Normal tt)
       sample_block opened
     = Normal (opened, [])
  /\ onaudioprocess "1700000000000" 48000%Q (fun _ _ => Normal tt)
       sample_block connected
     = Normal (connected, [])
  /\ exists base64,
       Audio.float32ArrayToBase64 (processingData 48000%Q sample_block)
       = Some base64
       /\ onaudioprocess "1700000000000" 48000%Q (fun _ _ => Normal tt)
            sample_block both
          = Normal (both, [SendRealtimeInput 9%nat "audio/pcm;rate=16000"
                             base64]).
Proof.
  intros s.
  apply (capture_needs_open_and_session "1700000000000" 9%nat 48000%Q
           (fun _ _ => Normal tt) sample_block s); reflexivity.
Defined.
